(** * Sunpath client: a shallow embedding of the instruction invokers

    The client consists of three button components ([AcceptTaskButton],
    [RejectTaskButton], [ReclaimTaskFundsButton]), the [useSolanaProgram]
    hook and the integration test of [initializeProgram] / [createTask].

    Strings are sequences of UTF-8 bytes.  Every needle the client searches
    for is ASCII, so searching and cutting agree with the UTF-16 view of the
    original strings. *)

From Stdlib Require Import String Ascii List ZArith Lia Bool.
From Stdlib Require Import Strings.Byte.
Import ListNotations.
Open Scope string_scope.
Open Scope list_scope.

(** ** String and value primitives of the host language *)

Module Js.

(** [s.includes(needle)] *)
Definition includes (s needle : string) : bool :=
  match String.index 0 needle s with
  | Some _ => true
  | None => false
  end.

(** [s.indexOf(needle)]: position of the first occurrence, or -1. *)
Definition indexOf (s needle : string) : Z :=
  match String.index 0 needle s with
  | Some i => Z.of_nat i
  | None => (-1)%Z
  end.

(** [s.substring(start)]: a negative start counts as 0, a start past the
    end gives the empty string. *)
Definition substring (s : string) (start : Z) : string :=
  let n := Z.to_nat (Z.max 0 start) in
  String.substring n (String.length s - n) s.

(** [s.startsWith(p)] *)
Definition startsWith (s p : string) : bool := String.prefix p s.

(** Truthiness of a string: only the empty string is falsy. *)
Definition truthy (s : string) : bool :=
  match s with
  | EmptyString => false
  | String _ _ => true
  end.

(** [m || d] where [m] is a possibly undefined string. *)
Definition orDefault (m : option string) (d : string) : string :=
  match m with
  | Some s => if truthy s then s else d
  | None => d
  end.

(** A possibly undefined string inside a template literal. *)
Definition interpolate (m : option string) : string :=
  match m with
  | Some s => s
  | None => "undefined"
  end.

End Js.

(** ** Thrown objects *)

(** What a [catch] clause of the client looks at: the [message] of the
    thrown object and, for transaction failures, its [logs]. *)
Record Thrown : Type := mkThrown {
  message : option string;
  logs : option (list string)
}.

(** [new Error(msg)] *)
Definition newError (msg : string) : Thrown :=
  {| message := Some msg; logs := None |}.

(** ** The three invokers present in the sources *)

Inductive Invoker : Type :=
| AcceptTask
| RejectTask
| ReclaimTaskFunds.

(** ** Error translation *)

Module ErrorTranslator.

Definition marker : string := "SunpathError::".
Definition genericMarker : string := "Error:".
Definition terminationMarker : string := "Program failed to complete".

Definition unknownError : string := "不明なエラーが発生しました。".
Definition programFailed : string := "プログラムの実行に失敗しました。".

(** The [if / else if] chain of each invoker: tag prefix, replacement. *)
Definition tagTable (inv : Invoker) : list (string * string) :=
  match inv with
  | AcceptTask =>
      [ ("NotTaskConsigner", "タスクの承認権限がありません (NotTaskConsigner)。");
        ("TaskNotOpen", "タスクが承認可能な状態ではありません (TaskNotOpen)。");
        ("TaskExpired", "タスクは期限切れです (TaskExpired)。");
        ("InvalidRecipient", "無効な受取人アドレスです (InvalidRecipient)。") ]
  | RejectTask =>
      [ ("NotTaskConsigner", "タスクの拒否権限がありません (NotTaskConsigner)。");
        ("TaskNotOpen", "タスクが拒否可能な状態ではありません (TaskNotOpen)。");
        ("TaskExpired", "タスクは期限切れです (TaskExpired)。") ]
  | ReclaimTaskFunds =>
      [ ("NotConsigner", "タスクの資金回収権限がありません (NotConsigner)。");
        ("CannotReclaimFunds",
         "まだ資金を回収できません (CannotReclaimFunds)。タスクが期限切れまたは拒否後のペナルティ期間が終了しているか確認してください。");
        ("DenialLockupActive",
         "拒否後のロックアップ期間が有効です。まだ資金を回収できません (DenialLockupActive)。") ]
  end.

(** Runs the chain on the text that follows the marker; when no branch
    fires the text is left as it is. *)
Fixpoint matchPrefix (table : list (string * string)) (errorMessage : string)
  : string :=
  match table with
  | [] => errorMessage
  | (tag, localized) :: rest =>
      if Js.startsWith errorMessage tag then localized
      else matchPrefix rest errorMessage
  end.

(** [log.substring(log.indexOf(marker) + marker.length)] *)
Definition afterMarker (log : string) : string :=
  Js.substring log (Js.indexOf log marker + Z.of_nat (String.length marker)).

(** The [for (const log of error.logs)] loop; [errorMessage] is the
    variable the loop updates, and the marker branch ends in [break]. *)
Fixpoint scanLogs (inv : Invoker) (logLines : list string)
  (errorMessage : string) : string :=
  match logLines with
  | [] => errorMessage
  | log :: rest =>
      if Js.includes log marker then
        matchPrefix (tagTable inv) (afterMarker log)
      else if Js.includes log genericMarker then
        scanLogs inv rest log
      else if Js.includes log terminationMarker then
        scanLogs inv rest programFailed
      else
        scanLogs inv rest errorMessage
  end.

(** The body of the [catch] clause up to the call of [onError]. *)
Definition translate (inv : Invoker) (error : Thrown) : string :=
  let errorMessage := Js.orDefault (message error) unknownError in
  match logs error with
  | Some logLines => scanLogs inv logLines errorMessage
  | None => errorMessage
  end.

End ErrorTranslator.

(** ** Byte buffers, big numbers and public keys

    [Buffer], bn.js and the [PublicKey] class of web3.js are libraries the
    client calls; they are modelled after their documented behaviour. *)

Definition Buffer : Type := list byte.

Module Buf.

Definition byteOfZ (z : Z) : byte :=
  match Byte.of_N (Z.to_N (Z.land z 255)) with
  | Some b => b
  | None => x00
  end.

Definition byteToZ (b : byte) : Z := Z.of_N (Byte.to_N b).

(** [Buffer.from(str)] *)
Definition from (s : string) : Buffer := list_byte_of_string s.

(** Reads a buffer as a big-endian number, as [new BN(bytes)] does. *)
Definition toBN (b : Buffer) : Z :=
  fold_left (fun acc x => (acc * 256 + byteToZ x)%Z) b 0%Z.

End Buf.

Module BN.

(** Number of bytes needed for [n]; 0 needs none. *)
Definition byteLength (n : Z) : Z :=
  if (n <=? 0)%Z then 0%Z else ((Z.log2 n + 8) / 8)%Z.

(** [len] bytes of the magnitude [q], least significant first: the low
    byte is taken with a mask and the number shifted right by 8 bits.
    bn.js holds a number as sign and magnitude; the callers pass the
    magnitude, which for the keys and the decoded numbers is the number
    itself. *)
Fixpoint leBytes (len : nat) (q : Z) : Buffer :=
  match len with
  | O => []
  | S len' => Buf.byteOfZ (Z.land q 255) :: leBytes len' (Z.shiftr q 8)
  end.

(** [n.toArrayLike(Buffer, "le", len)]; fails when [n] needs more than
    [len] bytes.  bn.js keeps sign and magnitude apart and writes the
    magnitude. *)
Definition toArrayLikeLE (n : Z) (len : nat) : option Buffer :=
  if (byteLength (Z.abs n) <=? Z.of_nat len)%Z
  then Some (leBytes len (Z.abs n))
  else None.

(** Big-endian with the fewest bytes. *)
Definition toArrayBE (n : Z) : Buffer :=
  rev (leBytes (Z.to_nat (byteLength n)) n).

End BN.

Module Bs58.

Definition ALPHABET : string :=
  "123456789ABCDEFGHJKLMNPQRSTUVWXYZabcdefghijkmnopqrstuvwxyz".

Fixpoint digitIn (alphabet : string) (c : ascii) (i : Z) : option Z :=
  match alphabet with
  | EmptyString => None
  | String a rest =>
      if Ascii.eqb a c then Some i else digitIn rest c (i + 1)%Z
  end.

Fixpoint decodeNumber (s : string) (acc : Z) : option Z :=
  match s with
  | EmptyString => Some acc
  | String c rest =>
      match digitIn ALPHABET c 0%Z with
      | Some d => decodeNumber rest (acc * 58 + d)%Z
      | None => None
      end
  end.

(** Each leading '1' stands for one leading zero byte. *)
Fixpoint leadingOnes (s : string) : nat :=
  match s with
  | String "1"%char rest => S (leadingOnes rest)
  | _ => O
  end.

(** [bs58.decode(s)]; [None] when [s] has a character outside the
    alphabet. *)
Definition decode (s : string) : option Buffer :=
  match decodeNumber s 0%Z with
  | Some n => Some (repeat x00 (leadingOnes s) ++ BN.toArrayBE n)
  | None => None
  end.

Definition charAt (i : Z) : ascii :=
  match String.get (Z.to_nat i) ALPHABET with
  | Some c => c
  | None => "1"%char
  end.

(** Digits of [n] in base 58, most significant first, put in front of
    [acc]; [fuel] bounds the number of digits. *)
Fixpoint digits (fuel : nat) (n : Z) (acc : string) : string :=
  match fuel with
  | O => acc
  | S fuel' =>
      if (n <=? 0)%Z then acc
      else digits fuel' (n / 58)%Z (String (charAt (n mod 58)%Z) acc)
  end.

Fixpoint leadingZeros (b : Buffer) : nat :=
  match b with
  | x00 :: rest => S (leadingZeros rest)
  | _ => O
  end.

Fixpoint ones (n : nat) : string :=
  match n with
  | O => EmptyString
  | S n' => String "1"%char (ones n')
  end.

(** [bs58.encode(b)]; two digits per byte are more than enough. *)
Definition encode (b : Buffer) : string :=
  String.append (ones (leadingZeros b))
    (digits (2 * List.length b) (Buf.toBN b) EmptyString).

End Bs58.

(** A public key, held as the number its 32 bytes spell.  web3.js builds
    no key of more than 32 bytes, so the keys the client meets are below
    2^256; the theorems that depend on it say so. *)
Record PublicKey : Type := mkPublicKey { _bn : Z }.

Module PublicKeys.

Definition PUBLIC_KEY_LENGTH : nat := 32.

(** [new PublicKey(value)] for a base-58 string. *)
Definition ofString (value : string) : Thrown + PublicKey :=
  match Bs58.decode value with
  | None => inl (newError "Non-base58 character")
  | Some decoded =>
      if Nat.eqb (List.length decoded) PUBLIC_KEY_LENGTH
      then inr (mkPublicKey (Buf.toBN decoded))
      else inl (newError "Invalid public key input")
  end.

(** [new PublicKey(bytes)] for the 32 bytes of a digest. *)
Definition ofBytes (bytes : Buffer) : PublicKey := mkPublicKey (Buf.toBN bytes).

(** [a.equals(b)] compares the numbers. *)
Definition equals (a b : PublicKey) : bool := Z.eqb (_bn a) (_bn b).

(** [key.toBuffer()]: 32 bytes, big-endian, padded with zeros in front. *)
Definition toBuffer (key : PublicKey) : Buffer :=
  rev (BN.leBytes PUBLIC_KEY_LENGTH (_bn key)).

(** [key.toBase58()] *)
Definition toBase58 (key : PublicKey) : string := Bs58.encode (toBuffer key).

End PublicKeys.

(** The program identity both buttons embed. *)
Definition PROGRAM_ID : PublicKey :=
  Eval vm_compute in
    match PublicKeys.ofString "Drr2eM6yoGXL2QZHdaFzXzUDDPQarV8acbbYWTBAtNyE" with
    | inr key => key
    | inl _ => mkPublicKey 0
    end.

(** The address of the system program, [SystemProgram.programId]. *)
Definition SystemProgram_programId : PublicKey := mkPublicKey 0.

(** ** What a handler does: events and suspended computations *)

Definition TransactionSignature : Type := string.

Inductive Commitment : Type :=
| Processed
| Confirmed
| Finalized.

(** [program.methods.<method>(args).accounts({...})] *)
Record MethodCall : Type := mkCall {
  method : string;
  args : list PublicKey;
  accounts : list (string * PublicKey)
}.

(** The [err] field of a confirmation: an object or a string. *)
Inductive TransactionError : Type :=
| ErrObject (shown : string)
| ErrString (s : string).

Definition errTruthy (e : TransactionError) : bool :=
  match e with
  | ErrObject _ => true
  | ErrString s => Js.truthy s
  end.

Definition errShown (e : TransactionError) : string :=
  match e with
  | ErrObject shown => shown
  | ErrString s => s
  end.

(** [confirmation.value]; [err] is [null] when the transaction succeeded. *)
Record ConfirmationValue : Type := mkConfirmation {
  err : option TransactionError
}.

(** The test [if (confirmation.value.err)]. *)
Definition hasErr (v : ConfirmationValue) : bool :=
  match err v with
  | Some e => errTruthy e
  | None => false
  end.

Inductive Event : Type :=
| OnError (msg : string)
| OnSuccess (signature : TransactionSignature)
| SetIsLoading (b : bool)
| ConsoleError (label : string)
| Submitted (call : MethodCall)
| ConfirmRequested (signature : TransactionSignature) (c : Commitment).

(** A computation that emits events, may suspend on the two network
    requests of a handler, and ends with a value or a thrown object. *)
Inductive Proc (A : Type) : Type :=
| Done (r : Thrown + A)
| Emit (e : Event) (k : Proc A)
| AwaitRpc (call : MethodCall) (k : Thrown + TransactionSignature -> Proc A)
| AwaitConfirm (signature : TransactionSignature) (c : Commitment)
    (k : Thrown + ConfirmationValue -> Proc A).

Arguments Done {A} r.
Arguments Emit {A} e k.
Arguments AwaitRpc {A} call k.
Arguments AwaitConfirm {A} signature c k.

Module ProcM.

Definition ret {A} (a : A) : Proc A := Done (inr a).
Definition throw {A} (e : Thrown) : Proc A := Done (inl e).
Definition emit (e : Event) : Proc unit := Emit e (ret tt).

Fixpoint bind {A B} (m : Proc A) (f : A -> Proc B) : Proc B :=
  match m with
  | Done (inl e) => Done (inl e)
  | Done (inr a) => f a
  | Emit e k => Emit e (bind k f)
  | AwaitRpc call k => AwaitRpc call (fun r => bind (k r) f)
  | AwaitConfirm s c k => AwaitConfirm s c (fun r => bind (k r) f)
  end.

(** [try { m } catch (e) { h e }] *)
Fixpoint tryCatch {A} (m : Proc A) (h : Thrown -> Proc A) : Proc A :=
  match m with
  | Done (inl e) => h e
  | Done (inr a) => Done (inr a)
  | Emit e k => Emit e (tryCatch k h)
  | AwaitRpc call k => AwaitRpc call (fun r => tryCatch (k r) h)
  | AwaitConfirm s c k => AwaitConfirm s c (fun r => tryCatch (k r) h)
  end.

(** [try { m } finally { f }]: [f] runs on every exit of [m]; the outcome
    of [m] stands unless [f] throws. *)
Fixpoint finally {A} (m : Proc A) (f : Proc unit) : Proc A :=
  match m with
  | Done r => bind f (fun _ => Done r)
  | Emit e k => Emit e (finally k f)
  | AwaitRpc call k => AwaitRpc call (fun r => finally (k r) f)
  | AwaitConfirm s c k => AwaitConfirm s c (fun r => finally (k r) f)
  end.

(** [await call.rpc()] *)
Definition rpc (call : MethodCall) : Proc TransactionSignature :=
  AwaitRpc call Done.

(** [await connection.confirmTransaction(signature, c)] *)
Definition confirmTransaction (signature : TransactionSignature)
  (c : Commitment) : Proc ConfirmationValue :=
  AwaitConfirm signature c Done.

(** A step that can only return or throw. *)
Definition lift {A} (r : Thrown + A) : Proc A := Done r.

End ProcM.

Declare Scope proc_scope.
Delimit Scope proc_scope with proc.
Notation "x <- m ;; k" := (ProcM.bind m (fun x => k))
  (at level 61, m at next level, right associativity) : proc_scope.
Notation "m ;;; k" := (ProcM.bind m (fun _ => k))
  (at level 61, right associativity) : proc_scope.

(** The network as the handler sees it: what each request settles to. *)
Record Network : Type := mkNetwork {
  rpcResult : MethodCall -> Thrown + TransactionSignature;
  confirmResult :
    TransactionSignature -> Commitment -> Thrown + ConfirmationValue
}.

(** Runs a computation to its end against a network; the trace lists the
    events in the order they happen, requests included. *)
Fixpoint run {A} (net : Network) (p : Proc A) : list Event * (Thrown + A) :=
  match p with
  | Done r => ([], r)
  | Emit e k => let (tr, r) := run net k in (e :: tr, r)
  | AwaitRpc call k =>
      let (tr, r) := run net (k (rpcResult net call)) in
      (Submitted call :: tr, r)
  | AwaitConfirm s c k =>
      let (tr, r) := run net (k (confirmResult net s c)) in
      (ConfirmRequested s c :: tr, r)
  end.

Definition trace {A} (net : Network) (p : Proc A) : list Event :=
  fst (run net p).

Definition outcome {A} (net : Network) (p : Proc A) : Thrown + A :=
  snd (run net p).

(** ** Wallet, provider and component inputs *)

(** The [signTransaction] capability the wallet adapter hands out. *)
Inductive WalletSigner : Type := walletSigner.

(** [useWallet()]: both fields are absent while no wallet is connected. *)
Record Wallet : Type := mkWallet {
  publicKey : option PublicKey;
  signTransaction : option WalletSigner
}.

(** [new AnchorProvider(connection, { publicKey, signTransaction },
    { preflightCommitment })] *)
Record AnchorProvider : Type := mkProvider {
  providerKey : PublicKey;
  providerSigner : WalletSigner;
  preflightCommitment : Commitment
}.

(** The string props of the buttons; only [AcceptTaskButton] has and reads
    [recipientPublicKeyString].  The two callbacks are the events
    [OnSuccess] and [OnError]. *)
Record Props : Type := mkProps {
  taskAccountPDAString : string;
  recipientPublicKeyString : string
}.

Definition walletNotConnected : string := "ウォレットが接続されていません。".

(** ** The provider acquirers *)

(** [getProvider] of the hook [useSolanaProgram]. *)
Definition useSolanaProgram_getProvider (w : Wallet) : option AnchorProvider :=
  match publicKey w, signTransaction w with
  | Some pk, Some signer => Some (mkProvider pk signer Confirmed)
  | _, _ => None
  end.

(** [getProvider] of the three buttons. *)
Definition getProvider (w : Wallet) : Proc (option AnchorProvider) :=
  match publicKey w, signTransaction w with
  | Some pk, Some signer => ProcM.ret (Some (mkProvider pk signer Confirmed))
  | _, _ =>
      (ProcM.emit (OnError walletNotConnected) ;;; ProcM.ret None)%proc
  end.

(** ** The behaviour as the specification words it

    These definitions follow the text of the specification, not the code;
    the theorems below compare the two. *)

Module Spec.

Import ErrorTranslator.

(** The fixed table of error tags. *)
Definition fixedTags : list string :=
  [ "NotTaskConsigner"; "TaskNotOpen"; "TaskExpired"; "InvalidRecipient";
    "NotConsigner"; "CannotReclaimFunds"; "DenialLockupActive" ].

(** The localized messages the buttons know. *)
Definition localizedMessages : list string :=
  map snd (tagTable AcceptTask ++ tagTable RejectTask
             ++ tagTable ReclaimTaskFunds).

Definition hasMarker (log : string) : bool := Js.includes log marker.
Definition hasGeneric (log : string) : bool := Js.includes log genericMarker.
Definition hasTermination (log : string) : bool :=
  Js.includes log terminationMarker.

(** The thrown object's own message, or the unknown-error default. *)
Definition fallback (error : Thrown) : string :=
  Js.orDefault (message error) unknownError.

(** The translation as specified: the first line with the program-error
    marker wins and its tag is looked up in the fixed table; else the
    first line with the generic marker, verbatim; else a line of abnormal
    termination gives the fixed message; else the fallback. *)
Definition Translates (error : Thrown) (logLines : list string)
  (msg : string) : Prop :=
  match find hasMarker logLines with
  | Some log =>
      (exists tag, In tag fixedTags
                   /\ Js.startsWith (afterMarker log) tag = true) ->
      In msg localizedMessages
  | None =>
      match find hasGeneric logLines with
      | Some log => msg = log
      | None =>
          if existsb hasTermination logLines then msg = programFailed
          else msg = fallback error
      end
  end.

(** A line that the loop keeps as a candidate without stopping. *)
Definition isCandidate (log : string) : bool :=
  hasGeneric log || hasTermination log.

(** The translation with the candidates read from the end: without a
    marker line it is the last candidate line that decides. *)
Definition translateLastWins (inv : Invoker) (error : Thrown) : string :=
  match logs error with
  | None => fallback error
  | Some logLines =>
      match find hasMarker logLines with
      | Some log => matchPrefix (tagTable inv) (afterMarker log)
      | None =>
          match find isCandidate (rev logLines) with
          | Some log => if hasGeneric log then log else programFailed
          | None => fallback error
          end
      end
  end.

(** The seed literals, byte by byte. *)
Definition config_v2 : Buffer :=
  [ "c"; "o"; "n"; "f"; "i"; "g"; "_"; "v"; "2" ]%byte.

Definition task_account : Buffer :=
  [ "t"; "a"; "s"; "k"; "_"; "a"; "c"; "c"; "o"; "u"; "n"; "t" ]%byte.

Definition admin_counter : Buffer :=
  [ "a"; "d"; "m"; "i"; "n"; "_"; "c"; "o"; "u"; "n"; "t"; "e"; "r" ]%byte.

(** Byte number [i] of [n], counting from the least significant. *)
Definition byteAt (n : Z) (i : nat) : byte :=
  Buf.byteOfZ ((n / 256 ^ Z.of_nat i) mod 256)%Z.

(** The task id as an 8-byte little-endian integer. *)
Definition le8 (taskId : Z) : Buffer := map (byteAt taskId) (seq 0 8).

(** The 32 bytes of a public key, most significant first. *)
Definition keyBytes (key : PublicKey) : Buffer :=
  map (fun i => byteAt (_bn key) (31 - i)) (seq 0 32).

Definition bothPresent (w : Wallet) : bool :=
  match publicKey w, signTransaction w with
  | Some _, Some _ => true
  | _, _ => false
  end.

(** The provider acquirer as specified: a context exactly when both the
    public key and the signing capability are present; otherwise no
    context, and an error surfaced to the caller. *)
Definition Acquires (acquire : Wallet -> Proc (option AnchorProvider))
  : Prop :=
  forall (net : Network) (w : Wallet),
    ((exists provider, outcome net (acquire w) = inr (Some provider))
     <-> bothPresent w = true)
    /\ (bothPresent w = false ->
        outcome net (acquire w) = inr None
        /\ exists msg, In (OnError msg) (trace net (acquire w))).

End Spec.

(** ** Program-derived addresses *)

Section Client.

(** The digest and the curve test of web3.js. *)
Variable sha256 : Buffer -> Buffer.
Variable isOnCurve : Buffer -> bool.

Definition MAX_SEED_LENGTH : nat := 32.

Inductive Created : Type :=
| CreatedAt (address : PublicKey)
| SeedTooLong
| OnCurve.

(** [PublicKey.createProgramAddressSync(seeds, programId)] *)
Definition createProgramAddressSync (seeds : list Buffer)
  (programId : PublicKey) : Created :=
  if existsb (fun seed => Nat.ltb MAX_SEED_LENGTH (List.length seed)) seeds
  then SeedTooLong
  else
    let buffer :=
      List.concat seeds ++ PublicKeys.toBuffer programId
        ++ Buf.from "ProgramDerivedAddress" in
    let publicKeyBytes := sha256 buffer in
    if isOnCurve publicKeyBytes then OnCurve
    else CreatedAt (PublicKeys.ofBytes publicKeyBytes).

(** The loop [while (nonce != 0)] of [findProgramAddressSync], entered
    with [nonce]. *)
Fixpoint findFrom (nonce : nat) (seeds : list Buffer)
  (programId : PublicKey) : Thrown + (PublicKey * nat) :=
  match nonce with
  | O => inl (newError "Unable to find a viable program address nonce")
  | S nonce' =>
      let seedsWithNonce := seeds ++ [[Buf.byteOfZ (Z.of_nat nonce)]] in
      match createProgramAddressSync seedsWithNonce programId with
      | CreatedAt address => inr (address, nonce)
      | SeedTooLong => inl (newError "Max seed length exceeded")
      | OnCurve => findFrom nonce' seeds programId
      end
  end.

(** [PublicKey.findProgramAddressSync(seeds, programId)]: the address and
    the nonce. *)
Definition findProgramAddressSync (seeds : list Buffer)
  (programId : PublicKey) : Thrown + (PublicKey * nat) :=
  findFrom 255 seeds programId.

(** The seed lists the client passes. *)
Definition configSeeds : list Buffer := [Buf.from "config_v2"].

Definition adminActionCounterSeeds (consigner : PublicKey) : list Buffer :=
  [Buf.from "admin_counter"; PublicKeys.toBuffer consigner].

(** [taskId.toArrayLike(Buffer, "le", 8)] fails for an id of more than 8
    bytes. *)
Definition taskAccountSeeds (consigner : PublicKey) (taskId : Z)
  : option (list Buffer) :=
  match BN.toArrayLikeLE taskId 8 with
  | Some le8 =>
      Some [Buf.from "task_account"; PublicKeys.toBuffer consigner; le8]
  | None => None
  end.

(** [const [address] = PublicKey.findProgramAddressSync(...)] *)
Definition deriveAddress (seeds : list Buffer) (programId : PublicKey)
  : Proc PublicKey :=
  match findProgramAddressSync seeds programId with
  | inl e => ProcM.throw e
  | inr (address, _) => ProcM.ret address
  end.

(** ** The click handlers *)

Definition transactionFailed (v : ConfirmationValue) : string :=
  String.append "トランザクションが失敗しました: "
    (match err v with
     | Some e => errShown e
     | None => "null"
     end).

(** The checks of [handleAcceptTask] before the loading state. *)
Definition checkAcceptInputs (props : Props) (publicKey : PublicKey)
  : Thrown + (PublicKey * PublicKey) :=
  if negb (Js.truthy (taskAccountPDAString props))
     || negb (Js.truthy (recipientPublicKeyString props))
  then inl (newError "タスクPDAと受取人アドレスは必須です。")
  else
    match PublicKeys.ofString (taskAccountPDAString props) with
    | inl e => inl e
    | inr taskAccountPDA =>
        match PublicKeys.ofString (recipientPublicKeyString props) with
        | inl e => inl e
        | inr recipientPublicKey =>
            if PublicKeys.equals recipientPublicKey publicKey
            then inl (newError
                   "受取人はタスク作成者と同じアドレスにすることはできません。")
            else inr (taskAccountPDA, recipientPublicKey)
        end
    end.

(** The [catch] clause shared in shape by the three handlers. *)
Definition reportFailure (inv : Invoker) (label : string) (error : Thrown)
  : Proc unit :=
  (ProcM.emit (ConsoleError label) ;;;
   ProcM.emit (OnError (ErrorTranslator.translate inv error)))%proc.

(** Confirmation at "finalized", then the test of [confirmation.value.err]. *)
Definition confirmOrThrow (signature : TransactionSignature) : Proc unit :=
  (confirmation <- ProcM.confirmTransaction signature Finalized ;;
   if hasErr confirmation
   then ProcM.throw (newError (transactionFailed confirmation))
   else ProcM.ret tt)%proc.

Definition handleAcceptTask (props : Props) (w : Wallet) : Proc unit :=
  (provider <- getProvider w ;;
   match provider, publicKey w with
   | Some provider, Some publicKey =>
       checked <-
         ProcM.tryCatch
           (ProcM.bind (ProcM.lift (checkAcceptInputs props publicKey))
              (fun keys => ProcM.ret (Some keys)))
           (fun e =>
              ProcM.emit
                (OnError (String.append "公開鍵の形式が正しくありません: "
                            (Js.interpolate (message e)))) ;;;
              ProcM.ret None) ;;
       match checked with
       | None => ProcM.ret tt
       | Some (taskAccountPDA, recipientPublicKey) =>
           ProcM.emit (SetIsLoading true) ;;;
           ProcM.finally
             (ProcM.tryCatch
                (configPDA <- deriveAddress configSeeds PROGRAM_ID ;;
                 adminActionCounterPDA <-
                   deriveAddress (adminActionCounterSeeds publicKey)
                     PROGRAM_ID ;;
                 signature <-
                   ProcM.rpc
                     (mkCall "acceptTask" [recipientPublicKey]
                        [ ("taskAccount", taskAccountPDA);
                          ("consignerWallet", publicKey);
                          ("recipientAccount", recipientPublicKey);
                          ("config", configPDA);
                          ("adminActionCounter", adminActionCounterPDA);
                          ("systemProgram", SystemProgram_programId) ]) ;;
                 confirmOrThrow signature ;;;
                 ProcM.emit (OnSuccess signature))
                (reportFailure AcceptTask
                   "タスク承認中にエラーが発生しました:"))
             (ProcM.emit (SetIsLoading false))
       end
   | _, _ =>
       match publicKey w with
       | None => ProcM.emit (OnError walletNotConnected)
       | Some _ => ProcM.ret tt
       end
   end)%proc.

(** The only check of [handleRejectTask] and [handleReclaimFunds]. *)
Definition parseTaskAccount (props : Props) (what : string)
  : Proc (option PublicKey) :=
  (ProcM.tryCatch
     (ProcM.bind (ProcM.lift (PublicKeys.ofString (taskAccountPDAString props)))
        (fun key => ProcM.ret (Some key)))
     (fun e =>
        ProcM.emit
          (OnError (String.append what (Js.interpolate (message e)))) ;;;
        ProcM.ret None))%proc.

Definition handleRejectTask (props : Props) (w : Wallet) : Proc unit :=
  (provider <- getProvider w ;;
   match provider, publicKey w with
   | Some provider, Some publicKey =>
       checked <-
         parseTaskAccount props
           "タスクアカウントPDAの形式が正しくありません: " ;;
       match checked with
       | None => ProcM.ret tt
       | Some taskAccountPDA =>
           ProcM.emit (SetIsLoading true) ;;;
           ProcM.finally
             (ProcM.tryCatch
                (configPDA <- deriveAddress configSeeds PROGRAM_ID ;;
                 adminActionCounterPDA <-
                   deriveAddress (adminActionCounterSeeds publicKey)
                     PROGRAM_ID ;;
                 signature <-
                   ProcM.rpc
                     (mkCall "rejectTask" []
                        [ ("taskAccount", taskAccountPDA);
                          ("consignerWallet", publicKey);
                          ("config", configPDA);
                          ("adminActionCounter", adminActionCounterPDA);
                          ("systemProgram", SystemProgram_programId) ]) ;;
                 confirmOrThrow signature ;;;
                 ProcM.emit (OnSuccess signature))
                (reportFailure RejectTask
                   "タスク拒否中にエラーが発生しました:"))
             (ProcM.emit (SetIsLoading false))
       end
   | _, _ =>
       match publicKey w with
       | None => ProcM.emit (OnError walletNotConnected)
       | Some _ => ProcM.ret tt
       end
   end)%proc.

Definition handleReclaimFunds (props : Props) (w : Wallet) : Proc unit :=
  (provider <- getProvider w ;;
   match provider, publicKey w with
   | Some provider, Some publicKey =>
       checked <-
         parseTaskAccount props
           "タスクアカウントPDAの形式が正しくありません: " ;;
       match checked with
       | None => ProcM.ret tt
       | Some taskAccountPDA =>
           ProcM.emit (SetIsLoading true) ;;;
           ProcM.finally
             (ProcM.tryCatch
                (configPDA <- deriveAddress configSeeds PROGRAM_ID ;;
                 signature <-
                   ProcM.rpc
                     (mkCall "reclaimTaskFunds" []
                        [ ("taskAccount", taskAccountPDA);
                          ("consignerWallet", publicKey);
                          ("config", configPDA);
                          ("systemProgram", SystemProgram_programId) ]) ;;
                 confirmOrThrow signature ;;;
                 ProcM.emit (OnSuccess signature))
                (reportFailure ReclaimTaskFunds
                   "資金回収中にエラーが発生しました:"))
             (ProcM.emit (SetIsLoading false))
       end
   | _, _ =>
       match publicKey w with
       | None => ProcM.emit (OnError walletNotConnected)
       | Some _ => ProcM.ret tt
       end
   end)%proc.

Definition handler (inv : Invoker) : Props -> Wallet -> Proc unit :=
  match inv with
  | AcceptTask => handleAcceptTask
  | RejectTask => handleRejectTask
  | ReclaimTaskFunds => handleReclaimFunds
  end.

(** The [disabled] attribute of each button. *)
Definition disabled (inv : Invoker) (props : Props) (w : Wallet)
  (isLoading : bool) : bool :=
  match inv with
  | AcceptTask =>
      match publicKey w with None => true | Some _ => false end
      || isLoading
      || negb (Js.truthy (taskAccountPDAString props))
      || negb (Js.truthy (recipientPublicKeyString props))
  | RejectTask | ReclaimTaskFunds =>
      match publicKey w with None => true | Some _ => false end
      || isLoading
      || negb (Js.truthy (taskAccountPDAString props))
  end.

(** A click on the button: a disabled button does not call its handler. *)
Definition onClick (inv : Invoker) (props : Props) (w : Wallet)
  (isLoading : bool) : Proc unit :=
  if disabled inv props w isLoading then ProcM.ret tt
  else handler inv props w.

(** ** A button on the page

    React keeps [isLoading]; every click that is let through starts a
    run of the handler, which stays suspended at each [await] until the
    network settles the request.  Several runs may be suspended at once
    as far as this model goes: that there is at most one is a theorem.
    The page is rendered again after every event. *)

Record Component : Type := mkComponent {
  kind : Invoker;
  props : Props;
  wallet : Wallet;
  isLoading : bool;
  pending : list (Proc unit);
  history : list Event
}.

Inductive Input : Type :=
| Click
| Rerender (p : Props) (w : Wallet)
| RpcSettles (i : nat) (r : Thrown + TransactionSignature)
| ConfirmSettles (i : nat) (r : Thrown + ConfirmationValue).

Definition mount (inv : Invoker) (p : Props) (w : Wallet) : Component :=
  mkComponent inv p w false [] [].

(** Runs [p] up to its next [await] or to its end: the value of
    [isLoading], the events, and the suspended rest if there is one. *)
Fixpoint advance (p : Proc unit) (loading : bool) (events : list Event)
  : bool * list Event * option (Proc unit) :=
  match p with
  | Done _ => (loading, events, None)
  | Emit e k =>
      advance k
        (match e with SetIsLoading b => b | _ => loading end)
        (events ++ [e])
  | AwaitRpc call _ => (loading, events ++ [Submitted call], Some p)
  | AwaitConfirm s c _ => (loading, events ++ [ConfirmRequested s c], Some p)
  end.

Fixpoint removeNth {A} (i : nat) (l : list A) : list A :=
  match l, i with
  | [], _ => []
  | _ :: rest, O => rest
  | x :: rest, S i' => x :: removeNth i' rest
  end.

Definition resume (c : Component) (i : nat) (p : Proc unit) : Component :=
  match advance p (isLoading c) (history c) with
  | (loading, events, suspended) =>
      mkComponent (kind c) (props c) (wallet c) loading
        (removeNth i (pending c)
           ++ match suspended with Some q => [q] | None => [] end)
        events
  end.

Definition step (c : Component) (i : Input) : Component :=
  match i with
  | Click =>
      if disabled (kind c) (props c) (wallet c) (isLoading c) then c
      else resume c (List.length (pending c))
             (handler (kind c) (props c) (wallet c))
  | Rerender p w =>
      mkComponent (kind c) p w (isLoading c) (pending c) (history c)
  | RpcSettles n r =>
      match nth_error (pending c) n with
      | Some (AwaitRpc _ k) => resume c n (k r)
      | _ => c
      end
  | ConfirmSettles n r =>
      match nth_error (pending c) n with
      | Some (AwaitConfirm _ _ k) => resume c n (k r)
      | _ => c
      end
  end.

Definition steps (c : Component) (inputs : list Input) : Component :=
  fold_left step inputs c.

(** ** The integration test of [initializeProgram] *)

Record ProgramConfig : Type := mkConfig {
  admin : PublicKey;
  daoTreasuryAddress : PublicKey;
  governanceTokenMint : PublicKey;
  minimumRewardAmount : Z;
  daoFeePercentage : Z;
  denialPenaltyDuration : Z;
  patrollerGovernanceTokenAmount : Z
}.

(** What the [catch] clause of the test looks at. *)
Record Caught : Type := mkCaught {
  instanceofError : bool;
  toStringText : string
}.

Definition adminPublicKey : PublicKey :=
  Eval vm_compute in
    match PublicKeys.ofString "Gv3J4Cf84cnGmJZtQtUF4gEzqshxEDV9gqzrEg3g9iZU" with
    | inr key => key
    | inl _ => mkPublicKey 0
    end.

Definition daoTreasury : PublicKey :=
  Eval vm_compute in
    match PublicKeys.ofString "GwBivTqKpi5WLFN5mnf47d7vnBkXZ4RcxUeyiuViqMyH" with
    | inr key => key
    | inl _ => mkPublicKey 0
    end.

Definition tokenMint : PublicKey :=
  Eval vm_compute in
    match PublicKeys.ofString "8JuJT8SWq7M9Az2pwgs2cJFZGKvvQatzmNLjkNDsUv8H" with
    | inr key => key
    | inl _ => mkPublicKey 0
    end.

(** The arguments the test passes to [initializeProgram]. *)
Definition initializeArgs : ProgramConfig :=
  mkConfig adminPublicKey daoTreasury tokenMint 10000000 5 1 0.

(** [configKey] and [taskAccountKey] as the test derives them. *)
Definition test_configKey (programId : PublicKey)
  : Thrown + (PublicKey * nat) :=
  findProgramAddressSync [Buf.from "config_v2"] programId.

Definition test_taskAccountKey (consigner : PublicKey) (taskId : Z)
  (programId : PublicKey) : option (Thrown + (PublicKey * nat)) :=
  match BN.toArrayLikeLE taskId 8 with
  | Some le8 =>
      Some (findProgramAddressSync
              [Buf.from "task_account"; PublicKeys.toBuffer consigner; le8]
              programId)
  | None => None
  end.

Inductive TestEvent : Type :=
| LogSuccess (txSignature : TransactionSignature)
| WarnAlreadyInitialized
| FetchConfig (address : PublicKey)
| LogError.

Inductive TestOutcome : Type :=
| Passed
| ExpectationFailed (actual expected : string)
| Rethrown (error : Caught)
| FetchThrew (error : Thrown).

(** The condition of the [if] in the [catch] clause. *)
Definition reportsAlreadyInUse (error : Caught) : bool :=
  instanceofError error
  && (Js.includes (toStringText error) "custom program error: 0x0"
      || Js.includes (toStringText error) "Account already in use").

(** The test "Is initialized! (or verifies existing initialization)",
    given what the call settles to and what a fetch returns. *)
Definition test_isInitialized (configKey : PublicKey)
  (called : Caught + TransactionSignature)
  (fetch : PublicKey -> Thrown + ProgramConfig)
  : list TestEvent * TestOutcome :=
  match called with
  | inr txSignature => ([LogSuccess txSignature], Passed)
  | inl error =>
      if reportsAlreadyInUse error then
        match fetch configKey with
        | inr configAccount =>
            let actual := PublicKeys.toBase58 (admin configAccount) in
            let expected := PublicKeys.toBase58 adminPublicKey in
            ([WarnAlreadyInitialized; FetchConfig configKey],
             if String.eqb actual expected then Passed
             else ExpectationFailed actual expected)
        | inl e =>
            ([WarnAlreadyInitialized; FetchConfig configKey], FetchThrew e)
        end
      else ([LogError], Rethrown error)
  end.

(** Modelled from the spec: the state of the on-chain program, which is
    not among the sources; here the Config accounts by address. *)
Definition Ledger : Type := list (PublicKey * ProgramConfig).

(** Modelled from the spec: the account the on-chain program holds at an
    address, if any. *)
Fixpoint accountAt (ledger : Ledger) (address : PublicKey)
  : option ProgramConfig :=
  match ledger with
  | [] => None
  | (a, account) :: rest =>
      if PublicKeys.equals a address then Some account
      else accountAt rest address
  end.

(** Modelled from the spec: the instruction [initializeProgram] of the
    on-chain program, which is not among the sources.  It creates the
    Config account at the address it is given; when an account is already
    there the call is rejected with [rejection], the already-in-use
    indication, and nothing changes. *)
Definition onchain_initializeProgram (rejection : Caught)
  (txSignature : TransactionSignature) (ledger : Ledger)
  (config : PublicKey) (args : ProgramConfig)
  : Ledger * (Caught + TransactionSignature) :=
  match accountAt ledger config with
  | Some _ => (ledger, inl rejection)
  | None => ((config, args) :: ledger, inr txSignature)
  end.

(** Modelled from the spec: the account fetch against the on-chain
    state, which is not among the sources; it fails when there is no
    account. *)
Definition onchain_fetch (ledger : Ledger) (address : PublicKey)
  : Thrown + ProgramConfig :=
  match accountAt ledger address with
  | Some account => inr account
  | None => inl (newError "Account does not exist")
  end.

(** The test run against a ledger. *)
Definition test_onLedger (rejection : Caught)
  (txSignature : TransactionSignature) (ledger : Ledger)
  (configKey : PublicKey) : Ledger * (list TestEvent * TestOutcome) :=
  let (ledger', called) :=
    onchain_initializeProgram rejection txSignature ledger configKey
      initializeArgs in
  (ledger', test_isInitialized configKey called (onchain_fetch ledger')).

(** Modelled from the spec: the wordings of the already-in-use indication
    of a rejected [initializeProgram]: the custom error 0 of the system
    program, or its line in the log. *)
Inductive Indication : Type :=
| CustomProgramError0
| AccountAlreadyInUse.

(** Modelled from the spec: the text of each indication. *)
Definition indicationText (i : Indication) : string :=
  match i with
  | CustomProgramError0 => "custom program error: 0x0"
  | AccountAlreadyInUse => "Account already in use"
  end.

(** Modelled from the spec: what a rejected [initializeProgram] throws: an
    [Error] whose text carries the indication, with whatever text before
    and after it. *)
Definition alreadyInUse (i : Indication) (before after : string) : Caught :=
  mkCaught true
    (String.append before (String.append (indicationText i) after)).

(** ** Reading a trace *)

Definition isOnError (e : Event) : bool :=
match e with OnError _ => true | _ => false end.

Definition isOnSuccess (e : Event) : bool :=
match e with OnSuccess _ => true | _ => false end.

Definition isSubmitted (e : Event) : bool :=
match e with Submitted _ => true | _ => false end.

Definition isConfirmRequested (e : Event) : bool :=
match e with ConfirmRequested _ _ => true | _ => false end.

Definition isSetIsLoading (e : Event) : bool :=
match e with SetIsLoading _ => true | _ => false end.

Definition count (p : Event -> bool) (events : list Event) : nat :=
List.length (filter p events).

(** [Bracketed loading p]: with [isLoading] at [loading], [p] suspends only
    while the flag is set and ends only with the flag cleared. *)
Inductive Bracketed : bool -> Proc unit -> Prop :=
| Bracketed_done r : Bracketed false (Done r)
| Bracketed_flag loading b k :
    Bracketed b k -> Bracketed loading (Emit (SetIsLoading b) k)
| Bracketed_emit loading e k :
    isSetIsLoading e = false ->
    Bracketed loading k -> Bracketed loading (Emit e k)
| Bracketed_rpc call k :
    (forall r, Bracketed true (k r)) -> Bracketed true (AwaitRpc call k)
| Bracketed_confirm s c k :
    (forall r, Bracketed true (k r)) -> Bracketed true (AwaitConfirm s c k).

(** A computation suspended at a request. *)
Definition isAwait (p : Proc unit) : bool :=
  match p with
  | AwaitRpc _ _ | AwaitConfirm _ _ _ => true
  | _ => false
  end.

(** What holds of a button at all times: nothing is suspended and the flag
    is clear, or one run is suspended at a request and the flag is set. *)
Definition Settled (c : Component) : Prop :=
  (pending c = [] /\ isLoading c = false)
  \/ (exists p, pending c = [p] /\ isLoading c = true
                /\ Bracketed true p /\ isAwait p = true).

(** Inputs of [acceptTask] that the handler must turn down on the spot: a
    missing or malformed address string, or a recipient that is the
    connected wallet. *)
Definition AcceptInputsRejected (props : Props) (w : Wallet) : Prop :=
Js.truthy (taskAccountPDAString props) = false
\/ Js.truthy (recipientPublicKeyString props) = false
\/ (exists e, PublicKeys.ofString (taskAccountPDAString props) = inl e)
\/ (exists e, PublicKeys.ofString (recipientPublicKeyString props) = inl e)
\/ (exists recipient consigner,
      PublicKeys.ofString (recipientPublicKeyString props) = inr recipient
      /\ publicKey w = Some consigner
      /\ PublicKeys.equals recipient consigner = true).

(** ** What the handlers pass along *)

(** The text each handler gives to [console.error]. *)
Definition consoleLabel (inv : Invoker) : string :=
  match inv with
  | AcceptTask => "タスク承認中にエラーが発生しました:"
  | RejectTask => "タスク拒否中にエラーが発生しました:"
  | ReclaimTaskFunds => "資金回収中にエラーが発生しました:"
  end.

(** The messages of the local checks. *)
Definition keyFormatPrefix : string := "公開鍵の形式が正しくありません: ".
Definition taskFormatPrefix : string :=
  "タスクアカウントPDAの形式が正しくありません: ".
Definition requiredMessage : string := "タスクPDAと受取人アドレスは必須です。".
Definition sameAddressMessage : string :=
  "受取人はタスク作成者と同じアドレスにすることはできません。".

(** What follows a submission in the trace, read off the answers of the
    network: the catch clause after a rejected request or a failed
    confirmation, the success callback otherwise. *)
Definition afterSubmission (inv : Invoker) (net : Network)
  (call : MethodCall) : list Event :=
  match rpcResult net call with
  | inl error =>
      [ ConsoleError (consoleLabel inv);
        OnError (ErrorTranslator.translate inv error) ]
  | inr signature =>
      ConfirmRequested signature Finalized
      :: match confirmResult net signature Finalized with
         | inl error =>
             [ ConsoleError (consoleLabel inv);
               OnError (ErrorTranslator.translate inv error) ]
         | inr confirmation =>
             if hasErr confirmation
             then [ ConsoleError (consoleLabel inv);
                    OnError (transactionFailed confirmation) ]
             else [ OnSuccess signature ]
         end
  end.

(** [Remaining n p]: what [p] may still wait for.  With [n = 2] it may
    wait for the submission and then for the confirmation, with [n = 1]
    for the confirmation only, with [n = 0] for nothing. *)
Inductive Remaining : nat -> Proc unit -> Prop :=
| Remaining_done n r : Remaining n (Done r)
| Remaining_emit n e k : Remaining n k -> Remaining n (Emit e k)
| Remaining_rpc call k :
    (forall r, Remaining 1 (k r)) -> Remaining 2 (AwaitRpc call k)
| Remaining_confirm n s c k :
    (forall r, Remaining 0 (k r)) -> Remaining (S n) (AwaitConfirm s c k).

(** A network that answers every request the same way. *)
Definition answering (r1 : Thrown + TransactionSignature)
  (r2 : Thrown + ConfirmationValue) : Network :=
  mkNetwork (fun _ => r1) (fun _ _ => r2).

(** A seed within the length limit of [createProgramAddressSync]. *)
Definition fitsSeed (seed : Buffer) : bool :=
  negb (Nat.ltb MAX_SEED_LENGTH (List.length seed)).

(** Every suspended run of a button waits for what a handler may wait
    for. *)
Definition AllRemaining (c : Component) : Prop :=
  forall p, In p (pending c) -> Remaining 2 p.

(** ** What counts as a failure of a click *)

(** An error as the cluster reports it in [confirmation.value.err]: an
    object, or the name of the error, which is not empty. *)
Definition ReportedError (e : TransactionError) : Prop :=
  match e with
  | ErrObject _ => True
  | ErrString name => name <> EmptyString
  end.

(** Inputs that a handler must turn down on the spot: those of
    [AcceptInputsRejected] for [acceptTask], a task address that does not
    parse for the other two. *)
Definition InputsRejected (inv : Invoker) (props : Props) (w : Wallet)
  : Prop :=
  match inv with
  | AcceptTask => AcceptInputsRejected props w
  | RejectTask | ReclaimTaskFunds =>
      exists e, PublicKeys.ofString (taskAccountPDAString props) = inl e
  end.

(** The prefix of the message of a local check. *)
Definition localPrefix (inv : Invoker) : string :=
  match inv with
  | AcceptTask => keyFormatPrefix
  | RejectTask | ReclaimTaskFunds => taskFormatPrefix
  end.

(** An address that the call of [inv] needs cannot be derived: the one
    of the Config account, or for [acceptTask] and [rejectTask] the one
    of the admin-action counter of the connected wallet; [e] is what the
    deriver throws. *)
Definition DerivationFails (inv : Invoker) (w : Wallet) (e : Thrown) : Prop :=
  findProgramAddressSync [Spec.config_v2] PROGRAM_ID = inl e
  \/ (inv <> ReclaimTaskFunds
      /\ exists consigner,
           publicKey w = Some consigner
           /\ findProgramAddressSync
                [Spec.admin_counter; Spec.keyBytes consigner] PROGRAM_ID
              = inl e).

(** What [findProgramAddressSync] is documented to return for [seeds]
    and a program: the nonce is the largest one below 256 for which
    [createProgramAddressSync] gives an address, and the address is that
    one. *)
Definition Derives (seeds : list Buffer) (programId address : PublicKey)
  (nonce : nat) : Prop :=
  1 <= nonce <= 255
  /\ createProgramAddressSync (seeds ++ [[Buf.byteOfZ (Z.of_nat nonce)]])
       programId = CreatedAt address
  /\ forall n, nonce < n <= 255 ->
       createProgramAddressSync (seeds ++ [[Buf.byteOfZ (Z.of_nat n)]])
         programId = OnCurve.


(** ** Sample data for concrete runs *)

(** A stand-in for the digest: a polynomial checksum, as 32 bytes. *)
Definition sampleDigest (b : Buffer) : Buffer :=
  rev (BN.leBytes 32
         (fold_left (fun acc x => ((acc * 257 + Buf.byteToZ x + 1)
                                   mod 2 ^ 256)%Z) b 0%Z)).

(** A stand-in for the curve test: digests that end in an odd byte are on
    the curve. *)
Definition sampleOnCurve (b : Buffer) : bool :=
  match rev b with
  | x :: _ => Z.odd (Buf.byteToZ x)
  | [] => false
  end.

Definition sampleWallet : Wallet :=
  mkWallet (Some adminPublicKey) (Some walletSigner).

(** The recipient is the connected wallet itself. *)
Definition sampleSelfPay : Props :=
  mkProps "GwBivTqKpi5WLFN5mnf47d7vnBkXZ4RcxUeyiuViqMyH"
    "Gv3J4Cf84cnGmJZtQtUF4gEzqshxEDV9gqzrEg3g9iZU".

Definition sampleProps : Props :=
  mkProps "GwBivTqKpi5WLFN5mnf47d7vnBkXZ4RcxUeyiuViqMyH"
    "8JuJT8SWq7M9Az2pwgs2cJFZGKvvQatzmNLjkNDsUv8H".

(** A network on which the transaction lands and then turns out to have
    failed on chain. *)
Definition sampleFailingNetwork : Network :=
  mkNetwork (fun _ => inr "3sig")
    (fun _ _ => inr (mkConfirmation (Some (ErrString "AccountInUse")))).

Definition sampleNetwork : Network :=
  mkNetwork (fun _ => inr "3sig") (fun _ _ => inr (mkConfirmation None)).

Definition sampleRejection : Caught :=
  mkCaught true
    "Error: failed to send transaction: Transaction simulation failed: Error processing Instruction 0: custom program error: 0x0".

Definition sampleConfigKey : PublicKey := mkPublicKey 424242.

(** A ledger on which the Config account exists already. *)
Definition sampleLedger : Ledger := [(sampleConfigKey, initializeArgs)].

(** A curve test under which no nonce gives an address. *)
Definition sampleAllOnCurve (b : Buffer) : bool := true.

(** The call the accept button submits for [sampleProps] and
    [sampleWallet] under the sample digest. *)
Definition sampleAcceptCall : MethodCall :=
  mkCall "acceptTask" [tokenMint]
    [ ("taskAccount", daoTreasury);
      ("consignerWallet", adminPublicKey);
      ("recipientAccount", tokenMint);
      ("config",
       mkPublicKey
         25811117289906049145888401519940679556885800420099672890934088386240143445916);
      ("adminActionCounter",
       mkPublicKey
         25188646374746023637205498801000022971422525012427105490089204879933878025702);
      ("systemProgram", SystemProgram_programId) ].

(** Logs of a rejected [acceptTask]: an earlier generic line, the line of
    the program error, and lines after it. *)
Definition sampleExpiredLogs : list string :=
  [ "Program log: Instruction: AcceptTask";
    "Program log: Error: simulated";
    "Program log: AnchorError occurred. SunpathError::TaskExpired. Error Number: 6002.";
    "Program failed to complete" ].


(** A rejected submission whose logs name an expired task. *)
Definition sampleRejectingNetwork : Network :=
  answering
    (inl (mkThrown (Some "failed to send transaction")
            (Some sampleExpiredLogs)))
    (inl (newError "not reached")).

(** * Properties *)

(** ** The error translator *)

Lemma find_over_app {A} (p : A -> bool) (l1 l2 : list A) :
  find p (l1 ++ l2)
  = match find p l1 with
    | Some x => Some x
    | None => find p l2
    end.
Proof.
  induction l1 as [|x l1 IH]; simpl; [reflexivity|].
  destruct (p x); [reflexivity | exact IH].
Qed.

Lemma find_none_forallb {A} (p : A -> bool) (l : list A) :
  forallb (fun x => negb (p x)) l = true -> find p l = None.
Proof.
  induction l as [|x l IH]; simpl; [reflexivity|].
  destruct (p x); simpl; [discriminate | exact IH].
Qed.

(** The loop, read off line by line: a marker line ends it, and until
    then every candidate line overwrites the one before. *)
Lemma scanLogs_last_candidate (inv : Invoker) (logLines : list string) :
  forall errorMessage,
    ErrorTranslator.scanLogs inv logLines errorMessage
    = match find Spec.hasMarker logLines with
      | Some log =>
          ErrorTranslator.matchPrefix (ErrorTranslator.tagTable inv)
            (ErrorTranslator.afterMarker log)
      | None =>
          match find Spec.isCandidate (rev logLines) with
          | Some log =>
              if Spec.hasGeneric log then log
              else ErrorTranslator.programFailed
          | None => errorMessage
          end
      end.
Proof.
  induction logLines as [|log rest IH]; intro errorMessage.
  - reflexivity.
  - cbn [ErrorTranslator.scanLogs find rev].
    rewrite find_over_app. cbn [find].
    unfold Spec.isCandidate, Spec.hasGeneric, Spec.hasTermination,
      Spec.hasMarker in *.
    destruct (Js.includes log ErrorTranslator.marker) eqn:Hm;
      [reflexivity|].
    destruct (Js.includes log ErrorTranslator.genericMarker) eqn:Hg;
      destruct (Js.includes log ErrorTranslator.terminationMarker) eqn:Ht;
      rewrite IH; cbn [orb];
      destruct (find _ rest); try reflexivity;
      destruct (find _ (rev rest)); try reflexivity;
      rewrite ?Hg; reflexivity.
Qed.

(** C1 (amended): the first line with the marker "SunpathError::" wins,
    and the text after the marker goes through the invoker's own prefix
    chain; without such a line the last line holding "Error:" or
    "Program failed to complete" decides, verbatim for the former and
    with the fixed message for the latter; without any such line, or
    without logs, the thrown object's message or the unknown-error
    default is used. *)
Theorem translate_last_candidate_wins (inv : Invoker) (error : Thrown) :
  ErrorTranslator.translate inv error = Spec.translateLastWins inv error.
Proof.
  unfold ErrorTranslator.translate, Spec.translateLastWins, Spec.fallback.
  destruct (logs error) as [logLines|]; [|reflexivity].
  apply scanLogs_last_candidate.
Qed.


(** In each chain no tag is a prefix of another, so a text that starts
    with a tag of the chain gets the message of that tag. *)
Lemma matchPrefix_localizes (inv : Invoker) (tag localized text : string) :
  In (tag, localized) (ErrorTranslator.tagTable inv) ->
  Js.startsWith text tag = true ->
  ErrorTranslator.matchPrefix (ErrorTranslator.tagTable inv) text = localized.
Proof.
  unfold Js.startsWith.
  destruct inv; cbn [ErrorTranslator.tagTable In];
    intros Hin Hs;
    repeat (destruct Hin as [Hin|Hin];
            [injection Hin as <- <-|]); try contradiction;
    cbn [ErrorTranslator.matchPrefix]; unfold Js.startsWith;
    try (rewrite Hs; reflexivity).
  all: do 5 (destruct text as [|? text]; [discriminate Hs|];
             cbn [String.prefix] in Hs |- *;
             match type of Hs with
             | (if ?d then _ else _) = true =>
                 destruct d as [<-|]; [|discriminate Hs]
             end; cbn).
  all: rewrite ?Hs; reflexivity.
Qed.


(** ** The handlers *)

Arguments Js.interpolate : simpl never.
Arguments Js.orDefault : simpl never.
Arguments Js.truthy : simpl never.
Arguments ErrorTranslator.translate : simpl never.
Arguments PublicKeys.ofString : simpl never.
Arguments PublicKeys.equals : simpl never.
Arguments findProgramAddressSync : simpl never.
Arguments transactionFailed : simpl never.
Arguments hasErr : simpl never.
Arguments String.append : simpl never.

(** Splits on whatever a handler is waiting for: the wallet, the checks,
    the derivations, and what the network answers. *)
Ltac split_on_stuck :=
  repeat (cbn;
          match goal with
          | |- context [match ?x with _ => _ end] =>
              lazymatch x with
              | context [match _ with _ => _ end] => fail
              | _ => destruct x eqn:?
              end
          end);
  cbn.

Ltac open_handler inv :=
  destruct inv; cbn [handler];
  unfold handleAcceptTask, handleRejectTask, handleReclaimFunds, getProvider,
    parseTaskAccount, checkAcceptInputs, deriveAddress, confirmOrThrow,
    reportFailure, ProcM.emit, ProcM.ret, ProcM.throw, ProcM.lift.

(** Goes through the members of a concrete trace. *)
Ltac members H :=
  cbn in H;
  repeat (lazymatch type of H with
          | _ \/ _ =>
              destruct H as [H|H];
              [try discriminate H; try (injection H as ?; subst)|]
          end);
  try contradiction.

Lemma truthy_transactionFailed (v : ConfirmationValue) :
  Js.truthy (transactionFailed v) = true.
Proof. reflexivity. Qed.

Lemma translate_newError (inv : Invoker) (msg : string) :
  Js.truthy msg = true ->
  ErrorTranslator.translate inv (newError msg) = msg.
Proof.
  intro H. unfold ErrorTranslator.translate, newError, Js.orDefault.
  cbn [message logs]. now rewrite H.
Qed.

Lemma translate_transactionFailed (inv : Invoker) (v : ConfirmationValue) :
  ErrorTranslator.translate inv (newError (transactionFailed v))
  = transactionFailed v.
Proof. apply translate_newError, truthy_transactionFailed. Qed.

(** The handler called with no public key reports twice; the button is
    disabled in that state, so no click gets there. *)
Lemma handler_without_publicKey (inv : Invoker) (props : Props)
  (signer : option WalletSigner) (net : Network) :
  run net (handler inv props (mkWallet None signer))
  = ([OnError walletNotConnected; OnError walletNotConnected], inr tt).
Proof. destruct inv, signer; reflexivity. Qed.

(** C4: when an address string of [acceptTask] is missing or malformed, or
    the recipient is the connected wallet, the handler is nothing but
    calls of [onError] followed by its return: it reaches no request and
    does not set the loading flag.  With a connected wallet there is one
    call, with the message of the failed check. *)
Theorem invalid_accept_inputs_fail_locally (props : Props) (w : Wallet) :
  AcceptInputsRejected props w ->
  exists msgs,
    msgs <> []
    /\ handleAcceptTask props w
       = fold_right Emit (Done (inr tt)) (map OnError msgs)
    /\ (Spec.bothPresent w = true ->
        exists reason,
          msgs = [String.append "公開鍵の形式が正しくありません: " reason]).
Proof.
  intro Hbad.
  destruct w as [[pk|] [sg|]];
    unfold handleAcceptTask, getProvider, checkAcceptInputs, ProcM.emit,
      ProcM.ret, ProcM.throw, ProcM.lift.
  2-4: cbn;
    match goal with
    | |- exists _, _ /\ Emit (OnError ?m1) (Emit (OnError ?m2) (Done _)) = _ /\ _ =>
        exists [m1; m2]
    | |- exists _, _ /\ Emit (OnError ?m) (Done _) = _ /\ _ => exists [m]
    end;
    (split; [discriminate | split; [reflexivity | discriminate]]).
  split_on_stuck.
  all: try match goal with
         | |- exists _, _ /\ Emit (OnError (String.append ?p ?r)) (Done _) = _ /\ _ =>
             exists [String.append p r];
             split; [discriminate | split; [reflexivity | intros _; exists r; reflexivity]]
         end.
  all: exfalso.
  all: destruct Hbad as [H|[H|[[e H]|[[e H]|(r & c & H1 & H2 & H3)]]]];
    cbn [taskAccountPDAString recipientPublicKeyString publicKey] in *;
    try (rewrite H in *; cbn in *; try discriminate; congruence).
  all: try (rewrite H, ?orb_true_r in *; cbn in *; discriminate).
  all: congruence.
Qed.

(** Finds a member of a concrete trace. *)
Ltac find_member := cbn; repeat (first [left; reflexivity | right]).

(** Puts together what two equations say about the same answer of the
    network. *)
Ltac merge_into H1 H2 :=
  rewrite H1 in H2;
  first [discriminate H2 | injection H2 as H2; subst | clear H2].

Ltac same_answer :=
  repeat match goal with
    | H1 : rpcResult _ _ = _, H2 : rpcResult _ _ = _ |- _ => merge_into H1 H2
    | H1 : confirmResult _ _ _ = _, H2 : confirmResult _ _ _ = _ |- _ =>
        merge_into H1 H2
    | H1 : hasErr _ = _, H2 : hasErr _ = _ |- _ => merge_into H1 H2
    end.

(** What the network throws at the submission reaches [onError] through
    the translator. *)
Lemma rejected_submission_is_translated (inv : Invoker) (props : Props)
  (w : Wallet) (net : Network) (call : MethodCall) (error : Thrown) :
  In (Submitted call) (trace net (handler inv props w)) ->
  rpcResult net call = inl error ->
  In (OnError (ErrorTranslator.translate inv error))
    (trace net (handler inv props w))
  /\ count isOnError (trace net (handler inv props w)) = 1.
Proof.
  unfold trace, count.
  open_handler inv.
  all: destruct w as [[pk|] [sg|]].
  all: split_on_stuck.
  all: intros Hin Hr; members Hin; same_answer.
  all: split; [find_member | reflexivity].
Qed.

(** ** The loading flag *)

Ltac bracket :=
  repeat (cbn;
          first
            [ apply Bracketed_done
            | apply Bracketed_flag
            | apply Bracketed_emit; [reflexivity|]
            | apply Bracketed_rpc; intros [?|?]
            | apply Bracketed_confirm; intros [?|?]
            | match goal with
              | |- context [match ?x with _ => _ end] =>
                  lazymatch x with
                  | context [match _ with _ => _ end] => fail
                  | _ => destruct x eqn:?
                  end
              end ]).

(** Every handler sets the flag before its first request and clears it on
    every way out. *)
Lemma handler_bracketed (inv : Invoker) (props : Props) (w : Wallet) :
  Bracketed false (handler inv props w).
Proof.
  open_handler inv.
  all: destruct w as [[pk|] [sg|]].
  all: bracket.
Qed.

Lemma advance_bracketed (loading : bool) (p : Proc unit) :
  Bracketed loading p ->
  forall events,
    match advance p loading events with
    | (loading', _, None) => loading' = false
    | (loading', _, Some q) =>
        loading' = true /\ Bracketed true q /\ isAwait q = true
    end.
Proof.
  induction 1 as [r|loading b k Hk IH|loading e k He Hk IH|call k Hk IH
                 |s c k Hk IH]; intro events; cbn [advance].
  - reflexivity.
  - apply IH.
  - destruct e; try discriminate He; apply IH.
  - repeat split. now constructor.
  - repeat split. now constructor.
Qed.

Lemma disabled_while_loading (inv : Invoker) (props : Props) (w : Wallet) :
  disabled inv props w true = true.
Proof.
  destruct inv; cbn [disabled]; destruct (publicKey w); reflexivity.
Qed.

Lemma enabled_not_loading (inv : Invoker) (props : Props) (w : Wallet)
  (loading : bool) :
  disabled inv props w loading = false -> loading = false.
Proof.
  destruct loading; [|reflexivity].
  now rewrite disabled_while_loading.
Qed.

Lemma resume_settled (c : Component) (p : Proc unit) :
  Bracketed (isLoading c) p ->
  List.length (pending c) <= 1 ->
  Settled (resume c 0 p).
Proof.
  intros Hp Hlen. unfold resume.
  pose proof (advance_bracketed (isLoading c) p Hp (history c)) as Hadv.
  destruct (advance p (isLoading c) (history c)) as [[loading events] [q|]].
  - destruct Hadv as (Hl & Hq & Ha). right. exists q. cbn.
    destruct (pending c) as [|x [|y rest]]; cbn in *; try lia; auto.
  - left. cbn.
    destruct (pending c) as [|x [|y rest]]; cbn in *; try lia; auto.
Qed.

Lemma step_settled (c : Component) (i : Input) :
  Settled c -> Settled (step c i).
Proof.
  intros Hc. destruct i as [|p w|n r|n r]; cbn [step].
  - destruct (disabled (kind c) (props c) (wallet c) (isLoading c)) eqn:Hd;
      [exact Hc|].
    apply enabled_not_loading in Hd.
    destruct Hc as [[Hp Hl]|(q & Hp & Hl & _)]; [|congruence].
    rewrite Hp. cbn [List.length]. apply resume_settled.
    + rewrite Hl. apply handler_bracketed.
    + rewrite Hp. cbn. lia.
  - destruct Hc as [[Hp Hl]|(q & Hp & Hl & Hq & Ha)]; [left|right]; cbn; eauto.
  - destruct Hc as [[Hp Hl]|(q & Hp & Hl & Hq & Ha)].
    + rewrite Hp. destruct n; cbn; left; auto.
    + rewrite Hp. destruct n as [|n]; cbn [nth_error].
      * destruct q; try (right; eauto; fail).
        apply resume_settled.
        -- rewrite Hl. inversion Hq; subst. auto.
        -- rewrite Hp. cbn. lia.
      * destruct n; cbn; right; eauto.
  - destruct Hc as [[Hp Hl]|(q & Hp & Hl & Hq & Ha)].
    + rewrite Hp. destruct n; cbn; left; auto.
    + rewrite Hp. destruct n as [|n]; cbn [nth_error].
      * destruct q; try (right; eauto; fail).
        apply resume_settled.
        -- rewrite Hl. inversion Hq; subst. auto.
        -- rewrite Hp. cbn. lia.
      * destruct n; cbn; right; eauto.
Qed.

Lemma steps_settled (inputs : list Input) :
  forall c, Settled c -> Settled (steps c inputs).
Proof.
  induction inputs as [|i rest IH]; intros c Hc; cbn.
  - exact Hc.
  - apply IH, step_settled, Hc.
Qed.

(** C8: whatever happens to a mounted button, in whatever order, the flag
    is set exactly while a run of the handler is suspended at a request,
    there is never more than one such run, and while the flag is set the
    button is disabled and a click changes nothing. *)
Theorem loading_flag_guards_submission (inv : Invoker) (p : Props)
  (w : Wallet) (inputs : list Input) :
  let c := steps (mount inv p w) inputs in
  (isLoading c = true <-> pending c <> [])
  /\ List.length (pending c) <= 1
  /\ (isLoading c = true ->
      disabled (kind c) (props c) (wallet c) (isLoading c) = true
      /\ step c Click = c).
Proof.
  intro c.
  assert (Hc : Settled c).
  { apply steps_settled. left. split; reflexivity. }
  destruct Hc as [[Hp Hl]|(q & Hp & Hl & Hq & Ha)]; rewrite Hp, Hl.
  - repeat split; try discriminate; try congruence. cbn. lia.
  - repeat split; try discriminate; try (cbn; lia).
    + apply disabled_while_loading.
    + cbn [step]. rewrite Hl. now rewrite disabled_while_loading.
Qed.

(** ** Seeds and derived addresses *)

Lemma land_255 (q : Z) : Z.land q 255 = (q mod 256)%Z.
Proof. exact (Z.land_ones q 8 ltac:(lia)). Qed.

Lemma byteAt_shift (q : Z) (i : nat) :
  Spec.byteAt (Z.shiftr q 8) i = Spec.byteAt q (S i).
Proof.
  unfold Spec.byteAt. f_equal. f_equal.
  rewrite Z.shiftr_div_pow2 by lia.
  rewrite Nat2Z.inj_succ, Z.pow_succ_r by lia.
  rewrite Z.div_div by lia. reflexivity.
Qed.

Lemma byteAt_low (q : Z) : Buf.byteOfZ (Z.land q 255) = Spec.byteAt q 0.
Proof.
  unfold Spec.byteAt. rewrite land_255. cbn [Z.of_nat].
  now rewrite Z.pow_0_r, Z.div_1_r.
Qed.

(** The bytes the mask-and-shift loop produces are the base-256 digits. *)
Lemma leBytes_digits (len : nat) :
  forall q, BN.leBytes len q = map (Spec.byteAt q) (seq 0 len).
Proof.
  induction len as [|len IH]; intro q; cbn [BN.leBytes seq map].
  - reflexivity.
  - rewrite byteAt_low, IH. f_equal.
    rewrite <- seq_shift, map_map.
    apply map_ext. intro i. apply byteAt_shift.
Qed.

Lemma toBuffer_keyBytes (key : PublicKey) :
  PublicKeys.toBuffer key = Spec.keyBytes key.
Proof.
  unfold PublicKeys.toBuffer, Spec.keyBytes, PublicKeys.PUBLIC_KEY_LENGTH.
  rewrite leBytes_digits. reflexivity.
Qed.

Lemma byteLength_u64 (n : Z) :
  (0 <= n < 2 ^ 64)%Z -> (BN.byteLength n <= 8)%Z.
Proof.
  intros [Hlo Hhi]. unfold BN.byteLength.
  destruct (n <=? 0)%Z eqn:Hn; [lia|].
  apply Z.leb_gt in Hn.
  assert (Z.log2 n < 64)%Z by (apply Z.log2_lt_pow2; lia).
  assert ((Z.log2 n + 8) / 8 < 9)%Z by (apply Z.div_lt_upper_bound; lia).
  lia.
Qed.

Lemma toArrayLikeLE_u64 (n : Z) :
  (0 <= n < 2 ^ 64)%Z -> BN.toArrayLikeLE n 8 = Some (Spec.le8 n).
Proof.
  intro Hn. unfold BN.toArrayLikeLE.
  rewrite (Z.abs_eq n) by lia.
  pose proof (byteLength_u64 n Hn) as Hlen.
  destruct (BN.byteLength n <=? Z.of_nat 8)%Z eqn:Hle.
  - now rewrite leBytes_digits.
  - apply Z.leb_gt in Hle. cbn in Hle. lia.
Qed.

Lemma configSeeds_literal : configSeeds = [Spec.config_v2].
Proof. reflexivity. Qed.

Lemma adminActionCounterSeeds_scheme (consigner : PublicKey) :
  adminActionCounterSeeds consigner
  = [Spec.admin_counter; Spec.keyBytes consigner].
Proof.
  unfold adminActionCounterSeeds. now rewrite toBuffer_keyBytes.
Qed.

Lemma taskAccountSeeds_scheme (consigner : PublicKey) (taskId : Z) :
  (0 <= taskId < 2 ^ 64)%Z ->
  taskAccountSeeds consigner taskId
  = Some [Spec.task_account; Spec.keyBytes consigner; Spec.le8 taskId].
Proof.
  intro Hid. unfold taskAccountSeeds.
  now rewrite (toArrayLikeLE_u64 taskId Hid), toBuffer_keyBytes.
Qed.

(** The accounts of every call a handler submits come from the seeds. *)
Lemma submitted_accounts_are_derived (inv : Invoker) (props : Props)
  (w : Wallet) (net : Network) (call : MethodCall) :
  In (Submitted call) (trace net (handler inv props w)) ->
  exists consigner,
    publicKey w = Some consigner
    /\ (exists config nonce,
           findProgramAddressSync configSeeds PROGRAM_ID = inr (config, nonce)
           /\ In ("config", config) (accounts call))
    /\ (inv <> ReclaimTaskFunds ->
        exists counter nonce,
          findProgramAddressSync (adminActionCounterSeeds consigner)
            PROGRAM_ID = inr (counter, nonce)
          /\ In ("adminActionCounter", counter) (accounts call)).
Proof.
  unfold trace.
  open_handler inv.
  all: destruct w as [[pk|] [sg|]].
  all: split_on_stuck.
  all: intro Hin; members Hin.
  all: exists pk; split; [reflexivity|]; split.
  all: try (do 2 eexists; split; [reflexivity | find_member]; fail).
  all: try match goal with
         | H : findProgramAddressSync (adminActionCounterSeeds _) _
               = inr (?a, ?n) |- _ =>
             intros _; exists a, n; split; [exact H | find_member]
         end.
  all: intro Hne; exfalso; apply Hne; reflexivity.
Qed.

(** C2: the seed lists the client builds are the documented ones: the
    literal "config_v2" alone; "task_account", the 32 bytes of the
    consigner's key and the task id as 8 little-endian bytes;
    "admin_counter" and the 32 bytes of the consigner's key.  The test
    derives its two addresses from the first two, and every call a button
    submits carries the addresses derived from the first and the third. *)
Theorem seeds_follow_documented_schemes :
  configSeeds = [Spec.config_v2]
  /\ (forall consigner,
        adminActionCounterSeeds consigner
        = [Spec.admin_counter; Spec.keyBytes consigner])
  /\ (forall consigner taskId,
        (0 <= taskId < 2 ^ 64)%Z ->
        taskAccountSeeds consigner taskId
        = Some [Spec.task_account; Spec.keyBytes consigner; Spec.le8 taskId])
  /\ (forall programId,
        test_configKey programId
        = findProgramAddressSync [Spec.config_v2] programId)
  /\ (forall consigner taskId programId,
        (0 <= taskId < 2 ^ 64)%Z ->
        test_taskAccountKey consigner taskId programId
        = Some (findProgramAddressSync
                  [Spec.task_account; Spec.keyBytes consigner;
                   Spec.le8 taskId] programId))
  /\ (forall inv props w net call,
        In (Submitted call) (trace net (handler inv props w)) ->
        exists consigner,
          publicKey w = Some consigner
          /\ (exists config nonce,
                 findProgramAddressSync [Spec.config_v2] PROGRAM_ID
                 = inr (config, nonce)
                 /\ In ("config", config) (accounts call))
          /\ (inv <> ReclaimTaskFunds ->
              exists counter nonce,
                findProgramAddressSync
                  [Spec.admin_counter; Spec.keyBytes consigner] PROGRAM_ID
                = inr (counter, nonce)
                /\ In ("adminActionCounter", counter) (accounts call))).
Proof.
  split; [exact configSeeds_literal|].
  split; [exact adminActionCounterSeeds_scheme|].
  split; [exact taskAccountSeeds_scheme|].
  split; [reflexivity|].
  split.
  - intros consigner taskId programId Hid. unfold test_taskAccountKey.
    now rewrite (toArrayLikeLE_u64 taskId Hid), toBuffer_keyBytes.
  - intros inv props w net call Hin.
    destruct (submitted_accounts_are_derived inv props w net call Hin)
      as (consigner & Hpk & Hconfig & Hcounter).
    exists consigner. rewrite <- adminActionCounterSeeds_scheme.
    repeat split; assumption.
Qed.

(** The loop stops at the largest nonce below 256 whose digest is off the
    curve, and returns the key of that digest. *)
Lemma findFrom_sound (nonce : nat) (seeds : list Buffer)
  (programId address : PublicKey) (found : nat) :
  findFrom nonce seeds programId = inr (address, found) ->
  1 <= found <= nonce
  /\ createProgramAddressSync (seeds ++ [[Buf.byteOfZ (Z.of_nat found)]])
       programId = CreatedAt address
  /\ forall n, found < n <= nonce ->
       createProgramAddressSync (seeds ++ [[Buf.byteOfZ (Z.of_nat n)]])
         programId = OnCurve.
Proof.
  induction nonce as [|nonce IH]; cbn [findFrom]; [discriminate|].
  destruct (createProgramAddressSync
              (seeds ++ [[Buf.byteOfZ (Z.of_nat (S nonce))]]) programId)
    as [a| |] eqn:Hc; intro H.
  - injection H as <- <-. split; [lia|]. split; [exact Hc|].
    intros n Hn. lia.
  - discriminate H.
  - destruct (IH H) as (Hr & Hf & Hup). split; [lia|]. split; [exact Hf|].
    intros n Hn. destruct (Nat.eq_dec n (S nonce)) as [->|Hneq].
    + exact Hc.
    + apply Hup. lia.
Qed.

(** The test and the buttons derive the Config address alike. *)
Lemma test_and_buttons_agree_on_config :
  test_configKey PROGRAM_ID = findProgramAddressSync configSeeds PROGRAM_ID.
Proof. reflexivity. Qed.

(** ** The provider acquirers *)

Lemma hook_context_iff (w : Wallet) :
  (exists provider, useSolanaProgram_getProvider w = Some provider)
  <-> Spec.bothPresent w = true.
Proof.
  unfold useSolanaProgram_getProvider, Spec.bothPresent.
  destruct (publicKey w), (signTransaction w); split;
    try reflexivity; try discriminate; try (intros [provider H]; discriminate H).
  intros _. eexists. reflexivity.
Qed.

(** The acquirer of the buttons does what the specification asks for. *)
Lemma getProvider_acquires : Spec.Acquires getProvider.
Proof.
  intros net w. unfold outcome, trace, getProvider, Spec.bothPresent.
  destruct (publicKey w), (signTransaction w); cbn.
  - split; [split|]; [reflexivity | intros _; eexists; reflexivity
                     | discriminate].
  - split; [split|]; [intros [provider H]; discriminate H | discriminate|].
    intros _. split; [reflexivity | eexists; left; reflexivity].
  - split; [split|]; [intros [provider H]; discriminate H | discriminate|].
    intros _. split; [reflexivity | eexists; left; reflexivity].
  - split; [split|]; [intros [provider H]; discriminate H | discriminate|].
    intros _. split; [reflexivity | eexists; left; reflexivity].
Qed.

(** C5 (amended): both acquirers produce a context exactly when the public
    key and the signing capability are both present, and [null] otherwise;
    the acquirer of the buttons then calls [onError] once with the
    wallet-not-connected message, the one of the hook [useSolanaProgram]
    reports nothing. *)
Theorem acquirers_produce_context_iff_connected (net : Network) (w : Wallet) :
  outcome net (getProvider w) = inr (useSolanaProgram_getProvider w)
  /\ ((exists provider, useSolanaProgram_getProvider w = Some provider)
      <-> Spec.bothPresent w = true)
  /\ (Spec.bothPresent w = false -> useSolanaProgram_getProvider w = None)
  /\ trace net (getProvider w)
     = (if Spec.bothPresent w then [] else [OnError walletNotConnected])
  /\ trace net (ProcM.ret (useSolanaProgram_getProvider w)) = [].
Proof.
  split; [|split; [apply hook_context_iff|]].
  - unfold outcome, getProvider, useSolanaProgram_getProvider.
    destruct (publicKey w), (signTransaction w); reflexivity.
  - unfold trace, getProvider, useSolanaProgram_getProvider, Spec.bothPresent.
    destruct (publicKey w), (signTransaction w); cbn; repeat split;
      try reflexivity; discriminate.
Qed.

(** ** The test of [initializeProgram] *)

(** Whatever the fetch returns, an error that reports the account as in
    use is not thrown again. *)
Lemma already_in_use_is_not_rethrown (configKey : PublicKey) (error : Caught)
  (fetch : PublicKey -> Thrown + ProgramConfig) :
  reportsAlreadyInUse error = true ->
  fst (test_isInitialized configKey (inl error) fetch)
  = [WarnAlreadyInitialized; FetchConfig configKey]
  /\ snd (test_isInitialized configKey (inl error) fetch) <> Rethrown error.
Proof.
  intro H. unfold test_isInitialized. rewrite H.
  destruct (fetch configKey) as [e|account]; cbn [fst snd].
  - split; [reflexivity | discriminate].
  - split; [reflexivity|].
    destruct (String.eqb _ _); discriminate.
Qed.

(** ** Local failures of the handlers *)

(** X1: with a connected wallet, [handleRejectTask] and
    [handleReclaimFunds] turn a task address that does not parse into one
    call of [onError] with the task-format prefix and the parser's
    message, and return; the empty string is such an address. *)
Theorem malformed_task_address_fails_locally (inv : Invoker) (props : Props)
  (w : Wallet) :
  inv <> AcceptTask ->
  Spec.bothPresent w = true ->
  (forall e,
      PublicKeys.ofString (taskAccountPDAString props) = inl e ->
      handler inv props w
      = Emit (OnError (String.append taskFormatPrefix
                         (Js.interpolate (message e))))
          (Done (inr tt)))
  /\ (taskAccountPDAString props = "" ->
      handler inv props w
      = Emit (OnError (String.append taskFormatPrefix
                         "Invalid public key input"))
          (Done (inr tt))).
Proof.
  intros Hinv Hw.
  assert (Hgen : forall e,
             PublicKeys.ofString (taskAccountPDAString props) = inl e ->
             handler inv props w
             = Emit (OnError (String.append taskFormatPrefix
                                (Js.interpolate (message e))))
                 (Done (inr tt))).
  { intros e He.
    destruct w as [[pk|] [sg|]]; try discriminate Hw.
    destruct inv; [contradiction|..];
      cbn [handler]; unfold handleRejectTask, handleReclaimFunds, getProvider,
        parseTaskAccount, ProcM.emit, ProcM.ret, ProcM.throw, ProcM.lift;
      cbn; rewrite He; reflexivity. }
  split; [exact Hgen|].
  intro Hempty. apply (Hgen (newError "Invalid public key input")).
  rewrite Hempty. reflexivity.
Qed.

(** X2: the checks of [handleAcceptTask] come in a fixed order, and each
    failure is reported under the key-format prefix: a missing string
    first, whatever the other string is; then the task address; then the
    recipient address; then a recipient that is the connected wallet. *)
Theorem accept_checks_in_order (props : Props) (pk : PublicKey)
  (sg : WalletSigner) :
  let w := mkWallet (Some pk) (Some sg) in
  let report reason :=
    Emit (OnError (String.append keyFormatPrefix reason)) (Done (inr tt)) in
  (Js.truthy (taskAccountPDAString props) = false
   \/ Js.truthy (recipientPublicKeyString props) = false ->
   handleAcceptTask props w = report requiredMessage)
  /\ (forall e,
        Js.truthy (taskAccountPDAString props) = true ->
        Js.truthy (recipientPublicKeyString props) = true ->
        PublicKeys.ofString (taskAccountPDAString props) = inl e ->
        handleAcceptTask props w = report (Js.interpolate (message e)))
  /\ (forall t e,
        Js.truthy (taskAccountPDAString props) = true ->
        Js.truthy (recipientPublicKeyString props) = true ->
        PublicKeys.ofString (taskAccountPDAString props) = inr t ->
        PublicKeys.ofString (recipientPublicKeyString props) = inl e ->
        handleAcceptTask props w = report (Js.interpolate (message e)))
  /\ (forall t r,
        Js.truthy (taskAccountPDAString props) = true ->
        Js.truthy (recipientPublicKeyString props) = true ->
        PublicKeys.ofString (taskAccountPDAString props) = inr t ->
        PublicKeys.ofString (recipientPublicKeyString props) = inr r ->
        PublicKeys.equals r pk = true ->
        handleAcceptTask props w = report sameAddressMessage).
Proof.
  intros w report. subst w report.
  unfold handleAcceptTask, getProvider, checkAcceptInputs, ProcM.emit,
    ProcM.ret, ProcM.throw, ProcM.lift.
  cbn [publicKey signTransaction].
  split; [|split; [|split]].
  - intros [H|H]; rewrite H; cbn; rewrite ?orb_true_r; reflexivity.
  - intros e Ht Hr He. rewrite Ht, Hr, He. reflexivity.
  - intros t e Ht Hr Hpt He. rewrite Ht, Hr, Hpt, He. reflexivity.
  - intros t r Ht Hr Hpt Hpr Heq. rewrite Ht, Hr, Hpt, Hpr, Heq. reflexivity.
Qed.

(** X3: without a public key or without the signing capability every
    handler only reports that the wallet is not connected, twice when the
    public key is missing and once when only the capability is; the
    props are not looked at. *)
Theorem disconnected_wallet_is_only_reported (inv : Invoker) (props : Props)
  (w : Wallet) :
  Spec.bothPresent w = false ->
  handler inv props w
  = match publicKey w with
    | None =>
        Emit (OnError walletNotConnected)
          (Emit (OnError walletNotConnected) (Done (inr tt)))
    | Some _ => Emit (OnError walletNotConnected) (Done (inr tt))
    end.
Proof.
  intro Hw. destruct w as [[pk|] [sg|]]; try discriminate Hw;
    destruct inv; reflexivity.
Qed.

(** ** What a handler submits, and what follows *)

(** X4: whatever [handleAcceptTask] submits is the instruction
    [acceptTask] with the recipient parsed from the props as its argument,
    the task account parsed from the props, the connected wallet as
    consigner, and a recipient that is not the consigner. *)
Theorem accept_submits_parsed_accounts (props : Props) (w : Wallet)
  (net : Network) (call : MethodCall) :
  In (Submitted call) (trace net (handleAcceptTask props w)) ->
  exists pk t r config counter,
    publicKey w = Some pk
    /\ PublicKeys.ofString (taskAccountPDAString props) = inr t
    /\ PublicKeys.ofString (recipientPublicKeyString props) = inr r
    /\ PublicKeys.equals r pk = false
    /\ call
       = mkCall "acceptTask" [r]
           [ ("taskAccount", t); ("consignerWallet", pk);
             ("recipientAccount", r); ("config", config);
             ("adminActionCounter", counter);
             ("systemProgram", SystemProgram_programId) ].
Proof.
  unfold trace, handleAcceptTask, getProvider, checkAcceptInputs,
    deriveAddress, confirmOrThrow, reportFailure, ProcM.emit, ProcM.ret,
    ProcM.throw, ProcM.lift.
  destruct w as [[pk|] [sg|]].
  all: split_on_stuck.
  all: intro Hin; members Hin.
  all: do 5 eexists; repeat split; try reflexivity; eassumption.
Qed.

(** X5: whatever [handleRejectTask] and [handleReclaimFunds] submit is
    their instruction without arguments, for the task account parsed from
    the props and the connected wallet as consigner; the reclaim call
    names no admin-action counter. *)
Theorem reject_and_reclaim_submit_parsed_accounts (props : Props)
  (w : Wallet) (net : Network) (call : MethodCall) :
  (In (Submitted call) (trace net (handleRejectTask props w)) ->
   exists pk t config counter,
     publicKey w = Some pk
     /\ PublicKeys.ofString (taskAccountPDAString props) = inr t
     /\ call
        = mkCall "rejectTask" []
            [ ("taskAccount", t); ("consignerWallet", pk);
              ("config", config); ("adminActionCounter", counter);
              ("systemProgram", SystemProgram_programId) ])
  /\ (In (Submitted call) (trace net (handleReclaimFunds props w)) ->
      exists pk t config,
        publicKey w = Some pk
        /\ PublicKeys.ofString (taskAccountPDAString props) = inr t
        /\ call
           = mkCall "reclaimTaskFunds" []
               [ ("taskAccount", t); ("consignerWallet", pk);
                 ("config", config);
                 ("systemProgram", SystemProgram_programId) ]).
Proof.
  unfold trace, handleRejectTask, handleReclaimFunds, getProvider,
    parseTaskAccount, deriveAddress, confirmOrThrow, reportFailure,
    ProcM.emit, ProcM.ret, ProcM.throw, ProcM.lift.
  split.
  all: destruct w as [[pk|] [sg|]].
  all: split_on_stuck.
  all: intro Hin; members Hin.
  all: repeat eexists; try reflexivity; eassumption.
Qed.

Arguments afterSubmission : simpl never.

(** X6: once a handler has submitted a call, its run is fixed by the
    answers of the network: the flag is set before the submission and
    cleared at the very end, and in between comes either the success
    callback, after a confirmation without error, or one [console.error]
    followed by one [onError]. *)
Theorem run_after_submission (inv : Invoker) (props : Props) (w : Wallet)
  (net : Network) (call : MethodCall) :
  In (Submitted call) (trace net (handler inv props w)) ->
  run net (handler inv props w)
  = (SetIsLoading true :: Submitted call
       :: afterSubmission inv net call ++ [SetIsLoading false],
     inr tt).
Proof.
  unfold trace.
  open_handler inv.
  all: destruct w as [[pk|] [sg|]].
  all: split_on_stuck.
  all: intro Hin; members Hin.
  all: unfold afterSubmission.
  all: repeat match goal with
         | H : rpcResult _ _ = _ |- _ => rewrite H; clear H
         | H : confirmResult _ _ _ = _ |- _ => rewrite H; clear H
         | H : hasErr _ = _ |- _ => rewrite H; clear H
         end.
  all: rewrite ?translate_transactionFailed; reflexivity.
Qed.

(** ** Derivations that fail *)

Lemma leBytes_length (len : nat) : forall q, List.length (BN.leBytes len q) = len.
Proof.
  induction len as [|len IH]; intro q; cbn [BN.leBytes List.length].
  - reflexivity.
  - now rewrite IH.
Qed.

Lemma toBuffer_length (key : PublicKey) :
  List.length (PublicKeys.toBuffer key) = 32.
Proof.
  unfold PublicKeys.toBuffer. rewrite length_rev. apply leBytes_length.
Qed.

Lemma createProgramAddressSync_fits (seeds : list Buffer)
  (programId : PublicKey) :
  forallb fitsSeed seeds = true ->
  createProgramAddressSync seeds programId <> SeedTooLong.
Proof.
  intro Hfit. unfold createProgramAddressSync.
  assert (Hex : existsb (fun seed => Nat.ltb MAX_SEED_LENGTH (List.length seed))
                  seeds = false).
  { induction seeds as [|seed rest IH]; [reflexivity|].
    cbn [forallb existsb] in *. apply andb_true_iff in Hfit as [Hs Hr].
    unfold fitsSeed in Hs. apply negb_true_iff in Hs.
    rewrite Hs, (IH Hr). reflexivity. }
  rewrite Hex. destruct (isOnCurve _); discriminate.
Qed.

Lemma findFrom_fails_without_nonce (nonce : nat) (seeds : list Buffer)
  (programId : PublicKey) (e : Thrown) :
  forallb fitsSeed seeds = true ->
  findFrom nonce seeds programId = inl e ->
  e = newError "Unable to find a viable program address nonce".
Proof.
  intros Hfit. induction nonce as [|nonce IH]; cbn [findFrom].
  - intro H. now injection H as <-.
  - pose proof (createProgramAddressSync_fits
                  (seeds ++ [[Buf.byteOfZ (Z.of_nat (S nonce))]]) programId)
      as Hno.
    destruct (createProgramAddressSync _ programId); intro H.
    + discriminate H.
    + exfalso. apply Hno; [|reflexivity].
      rewrite forallb_app, Hfit. reflexivity.
    + apply IH, H.
Qed.

Lemma some_eq {A} (x y : A) : Some x = Some y -> x = y.
Proof. intro H. now injection H. Qed.

Lemma fits_configSeeds : forallb fitsSeed configSeeds = true.
Proof. reflexivity. Qed.

Lemma fits_adminActionCounterSeeds (consigner : PublicKey) :
  forallb fitsSeed (adminActionCounterSeeds consigner) = true.
Proof.
  unfold adminActionCounterSeeds, fitsSeed. cbn [forallb].
  rewrite toBuffer_length. reflexivity.
Qed.

Lemma fits_taskAccountSeeds (consigner : PublicKey) (taskId : Z)
  (seeds : list Buffer) :
  taskAccountSeeds consigner taskId = Some seeds ->
  forallb fitsSeed seeds = true.
Proof.
  unfold taskAccountSeeds, BN.toArrayLikeLE.
  destruct (BN.byteLength (Z.abs taskId) <=? Z.of_nat 8)%Z; [|discriminate].
  intro H. apply some_eq in H. subst seeds. unfold fitsSeed. cbn [forallb].
  rewrite toBuffer_length, leBytes_length. reflexivity.
Qed.

(** X7: every seed the client passes fits the limit of 32 bytes, so a
    derivation of the client never fails over the length of a seed: it
    fails only when no nonce gives an address off the curve. *)
Theorem client_derivations_fail_only_without_nonce (programId : PublicKey)
  (e : Thrown) :
  let noNonce := newError "Unable to find a viable program address nonce" in
  (findProgramAddressSync configSeeds programId = inl e -> e = noNonce)
  /\ (forall consigner,
        findProgramAddressSync (adminActionCounterSeeds consigner) programId
        = inl e -> e = noNonce)
  /\ (forall consigner taskId seeds,
        taskAccountSeeds consigner taskId = Some seeds ->
        findProgramAddressSync seeds programId = inl e -> e = noNonce).
Proof.
  unfold findProgramAddressSync. repeat split.
  - apply findFrom_fails_without_nonce, fits_configSeeds.
  - intro consigner.
    apply findFrom_fails_without_nonce, fits_adminActionCounterSeeds.
  - intros consigner taskId seeds Hseeds.
    apply findFrom_fails_without_nonce.
    exact (fits_taskAccountSeeds consigner taskId seeds Hseeds).
Qed.

(** X8: a run that sets the loading flag and submits nothing is a
    derivation that found no nonce: it is reported once, with the message
    of the derivation, and the flag is cleared. *)
Theorem failed_derivation_is_reported (inv : Invoker) (props : Props)
  (w : Wallet) (net : Network) :
  In (SetIsLoading true) (trace net (handler inv props w)) ->
  (forall call, ~ In (Submitted call) (trace net (handler inv props w))) ->
  run net (handler inv props w)
  = ([ SetIsLoading true;
       ConsoleError (consoleLabel inv);
       OnError "Unable to find a viable program address nonce";
       SetIsLoading false ],
     inr tt).
Proof.
  unfold trace.
  open_handler inv.
  all: destruct w as [[pk|] [sg|]].
  all: split_on_stuck.
  all: intros Hin Hno; members Hin.
  all: try (exfalso; eapply Hno; find_member; fail).
  all: repeat match goal with
         | H : findProgramAddressSync _ _ = inl ?t |- _ =>
             apply findFrom_fails_without_nonce in H;
             [subst t | first [apply fits_configSeeds
                              | apply fits_adminActionCounterSeeds]]
         end.
  all: reflexivity.
Qed.

(** ** More on the error translator *)

(** The first line with the marker decides, whatever comes before or
    after it. *)
Lemma marker_line_decides (inv : Invoker) (error : Thrown)
  (before after : list string) (log : string) :
  logs error = Some (before ++ log :: after) ->
  forallb (fun l => negb (Js.includes l ErrorTranslator.marker)) before
    = true ->
  Js.includes log ErrorTranslator.marker = true ->
  ErrorTranslator.translate inv error
  = ErrorTranslator.matchPrefix (ErrorTranslator.tagTable inv)
      (ErrorTranslator.afterMarker log).
Proof.
  intros Hlogs Hbefore Hlog.
  unfold ErrorTranslator.translate. rewrite Hlogs.
  rewrite scanLogs_last_candidate, find_over_app.
  rewrite (find_none_forallb Spec.hasMarker before Hbefore).
  cbn [find]. unfold Spec.hasMarker at 1. now rewrite Hlog.
Qed.

(** X9: when the text after the marker of the first marker line starts
    with a tag of the invoker's chain, the message is the localized one of
    that tag, whatever follows the tag and whatever the other lines say,
    lines with "Error:" before it included. *)
Theorem matched_tag_is_localized (inv : Invoker) (error : Thrown)
  (before after : list string) (log tag localized : string) :
  logs error = Some (before ++ log :: after) ->
  forallb (fun l => negb (Js.includes l ErrorTranslator.marker)) before
    = true ->
  Js.includes log ErrorTranslator.marker = true ->
  In (tag, localized) (ErrorTranslator.tagTable inv) ->
  Js.startsWith (ErrorTranslator.afterMarker log) tag = true ->
  ErrorTranslator.translate inv error = localized.
Proof.
  intros Hlogs Hbefore Hlog Hin Hs.
  rewrite (marker_line_decides inv error before after log Hlogs Hbefore Hlog).
  exact (matchPrefix_localizes inv tag localized _ Hin Hs).
Qed.

Lemma substring_all (s : string) :
  String.substring 0 (String.length s) s = s.
Proof.
  induction s as [|c s IH]; cbn; [reflexivity | now rewrite IH].
Qed.

Lemma substring_zero_split (a b : nat) :
  forall s,
    String.substring 0 (a + b) s
    = String.append (String.substring 0 a s) (String.substring a b s).
Proof.
  induction a as [|a IH]; intro s.
  - cbn [Nat.add]. destruct s; cbn; destruct b; reflexivity.
  - destruct s as [|c s]; cbn.
    + reflexivity.
    + now rewrite IH.
Qed.

Lemma substring_split (n a b : nat) :
  forall s,
    String.substring n (a + b) s
    = String.append (String.substring n a s) (String.substring (n + a) b s).
Proof.
  induction n as [|n IH]; intro s.
  - apply substring_zero_split.
  - destruct s as [|c s]; cbn.
    + reflexivity.
    + apply IH.
Qed.

Lemma substring_length_le (n m : nat) :
  forall s, String.length (String.substring n m s) <= String.length s - n.
Proof.
  revert m. induction n as [|n IH]; intros m s.
  - rewrite Nat.sub_0_r. revert s.
    induction m as [|m IHm]; intro s; destruct s as [|c s]; cbn; try lia.
    specialize (IHm s). lia.
  - destruct s as [|c s]; cbn; [lia|]. apply IH.
Qed.

Lemma substring_zero_length (m : nat) :
  forall s, m <= String.length s ->
            String.length (String.substring 0 m s) = m.
Proof.
  induction m as [|m IH]; intros s Hm; destruct s as [|c s]; cbn in *;
    try lia; try reflexivity.
  rewrite IH; lia.
Qed.

(** X10: the text handed to the prefix chain is what follows the first
    occurrence of the marker: a line that contains the marker is the text
    before that occurrence, the marker, and that text, and the marker does
    not occur earlier in the line. *)
Theorem afterMarker_follows_first_occurrence (log : string) :
  Js.includes log ErrorTranslator.marker = true ->
  exists before,
    log = String.append before
            (String.append ErrorTranslator.marker
               (ErrorTranslator.afterMarker log))
    /\ forall p, p < String.length before ->
         String.substring p (String.length ErrorTranslator.marker) log
         <> ErrorTranslator.marker.
Proof.
  unfold Js.includes, ErrorTranslator.afterMarker, Js.indexOf, Js.substring.
  destruct (String.index 0 ErrorTranslator.marker log) as [m|] eqn:Hidx;
    [intros _ | discriminate].
  pose proof (index_correct1 _ _ _ _ Hidx) as Hat.
  pose proof (index_correct2 _ _ _ _ Hidx) as Hfirst.
  set (len := String.length ErrorTranslator.marker) in *.
  assert (Hlen : m + len <= String.length log).
  { pose proof (substring_length_le m len log) as Hle.
    rewrite Hat in Hle. fold len in Hle.
    assert (0 < len) by (cbn; lia). lia. }
  replace (Z.to_nat (Z.max 0 (Z.of_nat m + Z.of_nat len))) with (m + len)
    by lia.
  exists (String.substring 0 m log). split.
  - rewrite <- Hat at 1.
    rewrite <- substring_split.
    replace (len + (String.length log - (m + len)))
      with (String.length log - m) by lia.
    pose proof (substring_split 0 m (String.length log - m) log) as Hs.
    cbn [Nat.add] in Hs. rewrite <- Hs.
    replace (m + (String.length log - m)) with (String.length log) by lia.
    now rewrite substring_all.
  - intros p Hp. rewrite substring_zero_length in Hp by lia.
    apply Hfirst; lia.
Qed.



(** ** Seeds tell tasks and consigners apart *)

Lemma byteToZ_byteOfZ (z : Z) : Buf.byteToZ (Buf.byteOfZ z) = (z mod 256)%Z.
Proof.
  unfold Buf.byteToZ, Buf.byteOfZ. rewrite land_255.
  pose proof (Z.mod_pos_bound z 256 ltac:(lia)) as Hb.
  destruct (Byte.of_N (Z.to_N (z mod 256))) as [b|] eqn:Hof.
  - apply Byte.to_of_N in Hof. rewrite Hof. lia.
  - apply Byte.of_N_None_iff in Hof. lia.
Qed.

Lemma toBN_snoc (l : Buffer) (b : byte) :
  Buf.toBN (l ++ [b]) = (Buf.toBN l * 256 + Buf.byteToZ b)%Z.
Proof. unfold Buf.toBN. now rewrite fold_left_app. Qed.

(** Reading back the bytes gives the number, up to the bytes kept. *)
Lemma toBN_leBytes (len : nat) :
  forall q,
    Buf.toBN (rev (BN.leBytes len q)) = (q mod 256 ^ Z.of_nat len)%Z.
Proof.
  induction len as [|len IH]; intro q.
  - cbn. now rewrite Z.mod_1_r.
  - cbn [BN.leBytes rev]. rewrite toBN_snoc, IH, byteToZ_byteOfZ.
    rewrite land_255, Z.mod_mod by lia.
    rewrite Z.shiftr_div_pow2 by lia.
    rewrite Nat2Z.inj_succ, Z.pow_succ_r by lia.
    rewrite (Z.rem_mul_r q 256 (256 ^ Z.of_nat len)) by lia.
    change (2 ^ 8)%Z with 256%Z. ring.
Qed.

Lemma app_same_length {A} (a b x y : list A) :
  List.length a = List.length b ->
  a ++ x = b ++ y -> a = b /\ x = y.
Proof.
  revert b. induction a as [|h a IH]; intros [|k b] Hlen Heq;
    cbn in *; try discriminate.
  - split; [reflexivity | exact Heq].
  - injection Heq as -> Heq. injection Hlen as Hlen.
    destruct (IH b Hlen Heq) as [-> ->]. split; reflexivity.
Qed.

Lemma toBuffer_inj (k1 k2 : PublicKey) :
  (0 <= _bn k1 < 2 ^ 256)%Z ->
  (0 <= _bn k2 < 2 ^ 256)%Z ->
  PublicKeys.toBuffer k1 = PublicKeys.toBuffer k2 -> k1 = k2.
Proof.
  intros H1 H2 Heq. apply (f_equal Buf.toBN) in Heq.
  unfold PublicKeys.toBuffer, PublicKeys.PUBLIC_KEY_LENGTH in Heq.
  rewrite !toBN_leBytes in Heq.
  change (256 ^ Z.of_nat 32)%Z with (2 ^ 256)%Z in Heq.
  rewrite !Z.mod_small in Heq by assumption.
  destruct k1, k2. cbn in *. now subst.
Qed.

Lemma leBytes8_inj (t1 t2 : Z) :
  (0 <= t1 < 2 ^ 64)%Z ->
  (0 <= t2 < 2 ^ 64)%Z ->
  BN.leBytes 8 t1 = BN.leBytes 8 t2 -> t1 = t2.
Proof.
  intros H1 H2 Heq. apply (f_equal (fun l => Buf.toBN (rev l))) in Heq.
  cbv beta in Heq. rewrite !toBN_leBytes in Heq.
  change (256 ^ Z.of_nat 8)%Z with (2 ^ 64)%Z in Heq.
  now rewrite !Z.mod_small in Heq by assumption.
Qed.

(** X12: the bytes that go into the digest tell tasks and consigners
    apart: two task-account seed lists with the same concatenation belong
    to the same consigner and the same task id, and two admin-counter seed
    lists with the same concatenation to the same consigner. *)
Theorem seeds_identify_task_and_consigner (c1 c2 : PublicKey) :
  (0 <= _bn c1 < 2 ^ 256)%Z ->
  (0 <= _bn c2 < 2 ^ 256)%Z ->
  (forall t1 t2 s1 s2,
      (0 <= t1 < 2 ^ 64)%Z ->
      (0 <= t2 < 2 ^ 64)%Z ->
      taskAccountSeeds c1 t1 = Some s1 ->
      taskAccountSeeds c2 t2 = Some s2 ->
      List.concat s1 = List.concat s2 ->
      c1 = c2 /\ t1 = t2)
  /\ (List.concat (adminActionCounterSeeds c1)
      = List.concat (adminActionCounterSeeds c2) ->
      c1 = c2).
Proof.
  intros Hc1 Hc2. split.
  - intros t1 t2 s1 s2 Ht1 Ht2 Hs1 Hs2 Heq.
    unfold taskAccountSeeds, BN.toArrayLikeLE in Hs1, Hs2.
    rewrite (Z.abs_eq t1) in Hs1 by lia.
    rewrite (Z.abs_eq t2) in Hs2 by lia.
    destruct (BN.byteLength t1 <=? Z.of_nat 8)%Z; [|discriminate].
    destruct (BN.byteLength t2 <=? Z.of_nat 8)%Z; [|discriminate].
    apply some_eq in Hs1. apply some_eq in Hs2. subst s1 s2.
    cbn [List.concat] in Heq. rewrite !app_nil_r in Heq.
    apply app_inv_head in Heq.
    apply app_same_length in Heq; [|now rewrite !toBuffer_length].
    destruct Heq as [Hk Hl].
    split; [exact (toBuffer_inj c1 c2 Hc1 Hc2 Hk)
           | exact (leBytes8_inj t1 t2 Ht1 Ht2 Hl)].
  - unfold adminActionCounterSeeds. cbn [List.concat].
    rewrite !app_nil_r. intro Heq. apply app_inv_head in Heq.
    exact (toBuffer_inj c1 c2 Hc1 Hc2 Heq).
Qed.

(** X13: the three seed schemes never give the same bytes: their
    concatenations have 9, 45 and 52 bytes. *)
Theorem seed_schemes_do_not_collide (consigner consigner' : PublicKey)
  (taskId : Z) (seeds : list Buffer) :
  taskAccountSeeds consigner' taskId = Some seeds ->
  List.length (List.concat configSeeds) = 9
  /\ List.length (List.concat (adminActionCounterSeeds consigner)) = 45
  /\ List.length (List.concat seeds) = 52
  /\ List.concat configSeeds
     <> List.concat (adminActionCounterSeeds consigner)
  /\ List.concat configSeeds <> List.concat seeds
  /\ List.concat (adminActionCounterSeeds consigner) <> List.concat seeds.
Proof.
  intro Hs.
  unfold taskAccountSeeds, BN.toArrayLikeLE in Hs.
  destruct (BN.byteLength (Z.abs taskId) <=? Z.of_nat 8)%Z; [|discriminate].
  apply some_eq in Hs. subst seeds.
  assert (H1 : List.length (List.concat configSeeds) = 9) by reflexivity.
  assert (H2 : List.length (List.concat (adminActionCounterSeeds consigner))
               = 45).
  { unfold adminActionCounterSeeds. cbn [List.concat].
    rewrite !length_app, toBuffer_length. reflexivity. }
  assert (H3 : List.length
                 (List.concat
                    [Buf.from "task_account"; PublicKeys.toBuffer consigner';
                     BN.leBytes 8 (Z.abs taskId)]) = 52).
  { cbn [List.concat].
    rewrite !length_app, toBuffer_length, leBytes_length. reflexivity. }
  repeat split; try assumption;
    intro Heq; apply (f_equal (@List.length byte)) in Heq; lia.
Qed.

(** X14: a task id fits the 8 bytes of its seed exactly when it is below
    2^64; for a larger id no seed list, and so no task address, is
    produced. *)
Theorem task_id_must_fit_eight_bytes (consigner : PublicKey) (taskId : Z)
  (programId : PublicKey) :
  (0 <= taskId)%Z ->
  (taskAccountSeeds consigner taskId = None <-> (2 ^ 64 <= taskId)%Z)
  /\ (test_taskAccountKey consigner taskId programId = None
      <-> (2 ^ 64 <= taskId)%Z).
Proof.
  intro Hpos.
  assert (Hlen : (BN.byteLength taskId <=? Z.of_nat 8)%Z = false
                 <-> (2 ^ 64 <= taskId)%Z).
  { split.
    - intro Hb. destruct (Z.lt_ge_cases taskId (2 ^ 64)) as [Hlt|Hge];
        [|exact Hge].
      pose proof (byteLength_u64 taskId (conj Hpos Hlt)) as Hle.
      apply Z.leb_gt in Hb. cbn in Hb. lia.
    - intro Hge. apply Z.leb_gt. unfold BN.byteLength.
      destruct (taskId <=? 0)%Z eqn:Hz; [apply Z.leb_le in Hz; lia|].
      assert (64 <= Z.log2 taskId)%Z by (apply Z.log2_le_pow2; lia).
      assert (9 <= (Z.log2 taskId + 8) / 8)%Z
        by (apply Z.div_le_lower_bound; lia).
      cbn. lia. }
  unfold taskAccountSeeds, test_taskAccountKey, BN.toArrayLikeLE.
  rewrite (Z.abs_eq taskId) by exact Hpos.
  destruct (BN.byteLength taskId <=? Z.of_nat 8)%Z; split; split;
    try discriminate; try reflexivity; intro H;
    try (apply Hlen in H; discriminate H);
    try (apply Hlen; reflexivity).
Qed.

(** ** Settlements always clear the flag *)

Ltac remaining :=
  repeat (cbn;
          first
            [ apply Remaining_done
            | apply Remaining_emit
            | apply Remaining_rpc; intros [?|?]
            | apply Remaining_confirm; intros [?|?]
            | match goal with
              | |- context [match ?x with _ => _ end] =>
                  lazymatch x with
                  | context [match _ with _ => _ end] => fail
                  | _ => destruct x eqn:?
                  end
              end ]).

(** Every handler waits for the submission first and for the confirmation
    second, and for nothing else. *)
Lemma handler_remaining (inv : Invoker) (props : Props) (w : Wallet) :
  Remaining 2 (handler inv props w).
Proof.
  open_handler inv.
  all: destruct w as [[pk|] [sg|]].
  all: remaining.
Qed.

Lemma Remaining_weaken (n : nat) (p : Proc unit) :
  Remaining n p -> forall m, n <= m -> m <= 2 -> Remaining m p.
Proof.
  induction 1 as [n r|n e k Hk IH|call k Hk IH|n s c k Hk IH];
    intros m Hnm Hm.
  - constructor.
  - constructor. now apply IH.
  - replace m with 2 by lia. now constructor.
  - destruct m as [|m]; [lia|]. now constructor.
Qed.

Lemma advance_remaining (n : nat) (p : Proc unit) :
  Remaining n p ->
  forall loading events,
    match advance p loading events with
    | (_, _, Some q) => Remaining n q
    | (_, _, None) => True
    end.
Proof.
  induction 1 as [n r|n e k Hk IH|call k Hk IH|n s c k Hk IH];
    intros loading events; cbn [advance].
  - exact I.
  - apply IH.
  - now constructor.
  - now constructor.
Qed.

Lemma advance_nothing_left (n : nat) (p : Proc unit) :
  Remaining n p -> n = 0 ->
  forall loading events, snd (advance p loading events) = None.
Proof.
  induction 1 as [n r|n e k Hk IH|call k Hk IH|n s c k Hk IH];
    intros Hn loading events; cbn [advance]; try discriminate Hn.
  - reflexivity.
  - now apply IH.
Qed.

Lemma In_removeNth {A} (x : A) (i : nat) :
  forall l, In x (removeNth i l) -> In x l.
Proof.
  induction i as [|i IH]; intros [|y l] Hin; cbn in *; auto.
  destruct Hin as [->|Hin]; auto.
Qed.

Lemma resume_remaining (c : Component) (i : nat) (p : Proc unit) :
  AllRemaining c -> Remaining 2 p -> AllRemaining (resume c i p).
Proof.
  intros Hc Hp q. unfold resume.
  pose proof (advance_remaining 2 p Hp (isLoading c) (history c)) as Hadv.
  destruct (advance p (isLoading c) (history c)) as [[loading events] [s|]];
    cbn [pending]; rewrite in_app_iff; intros [Hin|Hin].
  - apply Hc. eapply In_removeNth, Hin.
  - destruct Hin as [<-|[]]. exact Hadv.
  - apply Hc. eapply In_removeNth, Hin.
  - destruct Hin.
Qed.

Lemma step_remaining (c : Component) (i : Input) :
  AllRemaining c -> AllRemaining (step c i).
Proof.
  intro Hc. destruct i as [|p w|n r|n r]; cbn [step].
  - destruct (disabled _ _ _ _); [exact Hc|].
    apply resume_remaining; [exact Hc | apply handler_remaining].
  - exact Hc.
  - destruct (nth_error (pending c) n) as [[| | call k|]|] eqn:Hn;
      try exact Hc.
    apply resume_remaining; [exact Hc|].
    apply nth_error_In in Hn. apply Hc in Hn. inversion Hn; subst.
    apply (Remaining_weaken 1); auto.
  - destruct (nth_error (pending c) n) as [[| | |s cm k]|] eqn:Hn;
      try exact Hc.
    apply resume_remaining; [exact Hc|].
    apply nth_error_In in Hn. apply Hc in Hn. inversion Hn; subst.
    apply (Remaining_weaken 0); auto.
Qed.

Lemma steps_remaining (inputs : list Input) :
  forall c, AllRemaining c -> AllRemaining (steps c inputs).
Proof.
  induction inputs as [|i rest IH]; intros c Hc; cbn.
  - exact Hc.
  - apply IH, step_remaining, Hc.
Qed.

Lemma pending_resume (c : Component) (i : nat) (p : Proc unit) :
  pending (resume c i p)
  = removeNth i (pending c)
      ++ match snd (advance p (isLoading c) (history c)) with
         | Some q => [q]
         | None => []
         end.
Proof.
  unfold resume.
  destruct (advance p (isLoading c) (history c)) as [[loading events] s].
  reflexivity.
Qed.

Lemma isLoading_resume (c : Component) (i : nat) (p : Proc unit) :
  isLoading (resume c i p)
  = fst (fst (advance p (isLoading c) (history c))).
Proof.
  unfold resume.
  destruct (advance p (isLoading c) (history c)) as [[loading events] s].
  reflexivity.
Qed.

(** After the answer to the submission a suspended run can only wait for
    the confirmation. *)
Lemma after_rpc_settles (c : Component) (r : Thrown + TransactionSignature) :
  Settled c -> AllRemaining c ->
  forall p, pending (step c (RpcSettles 0 r)) = [p] ->
            exists s cm k, p = AwaitConfirm s cm k.
Proof.
  intros Hs Hr p. cbn [step].
  destruct Hs as [[Hp Hl]|(q & Hp & Hl & Hq & Ha)]; rewrite Hp;
    cbn [nth_error].
  - rewrite Hp. discriminate.
  - assert (Hq2 : Remaining 2 q) by (apply Hr; rewrite Hp; now left).
    destruct q as [x|e k|call k|s cm k]; try discriminate Ha.
    + inversion Hq2 as [| |call' k' Hk|]; subst.
      inversion Hq as [| | |call' k' Hb|]; subst.
      rewrite pending_resume, Hp, Hl. cbn [removeNth app].
      pose proof (advance_bracketed true (k r) (Hb r) (history c)) as Hadv.
      pose proof (advance_remaining 1 (k r) (Hk r) true (history c)) as Hrem.
      destruct (advance (k r) true (history c)) as [[loading events] [q'|]];
        cbn [snd]; [|discriminate].
      intro Heq. injection Heq as <-.
      destruct Hadv as (_ & _ & Ha').
      destruct q' as [x|e k'|call' k'|s cm k']; try discriminate Ha'.
      * inversion Hrem.
      * eauto.
    + rewrite Hp. intro Heq. injection Heq as <-. eauto.
Qed.

(** The answer to the confirmation ends a run that waits for it. *)
Lemma after_confirm_settles (c : Component)
  (r : Thrown + ConfirmationValue) :
  Settled c -> AllRemaining c ->
  (forall p, pending c = [p] -> exists s cm k, p = AwaitConfirm s cm k) ->
  isLoading (step c (ConfirmSettles 0 r)) = false
  /\ pending (step c (ConfirmSettles 0 r)) = [].
Proof.
  intros Hs Hr Hconf. cbn [step].
  destruct Hs as [[Hp Hl]|(q & Hp & Hl & Hq & Ha)]; rewrite Hp;
    cbn [nth_error].
  - split; assumption.
  - assert (Hq2 : Remaining 2 q) by (apply Hr; rewrite Hp; now left).
    destruct (Hconf q Hp) as (s & cm & k & ->).
    inversion Hq2 as [| | |n s' c' k' Hk]; subst.
    inversion Hq as [| | | |s' c' k' Hb]; subst.
    rewrite pending_resume, isLoading_resume, Hp, Hl. cbn [removeNth app].
    pose proof (advance_bracketed true (k r) (Hb r) (history c)) as Hadv.
    pose proof (advance_nothing_left 0 (k r) (Hk r) eq_refl true (history c))
      as Hnone.
    destruct (advance (k r) true (history c)) as [[loading events] s2].
    cbn [snd fst] in *. subst s2. split; [exact Hadv | reflexivity].
Qed.

(** X15: a button cannot stay busy once the network has answered:
    whatever state it has reached, after an answer to the submission and
    an answer to the confirmation, whatever they are, the flag is cleared
    and no run is suspended. *)
Theorem answers_clear_the_flag (inv : Invoker) (p : Props) (w : Wallet)
  (inputs : list Input) (r1 : Thrown + TransactionSignature)
  (r2 : Thrown + ConfirmationValue) :
  let c :=
    steps (steps (mount inv p w) inputs)
      [RpcSettles 0 r1; ConfirmSettles 0 r2] in
  isLoading c = false /\ pending c = [].
Proof.
  set (c0 := steps (mount inv p w) inputs).
  assert (Hs : Settled c0).
  { apply steps_settled. left. split; reflexivity. }
  assert (Hr : AllRemaining c0).
  { apply steps_remaining. intros q []. }
  cbn [steps fold_left].
  apply after_confirm_settles.
  - apply step_settled, Hs.
  - apply step_remaining, Hr.
  - apply after_rpc_settles; assumption.
Qed.

(** X16: taken event by event, with the run suspended at each request, a
    click does what the handler does when run straight through against
    the same two answers. *)
Theorem suspended_run_agrees_with_straight_run (inv : Invoker)
  (p : Props) (w : Wallet) (r1 : Thrown + TransactionSignature)
  (r2 : Thrown + ConfirmationValue) :
  history (steps (mount inv p w)
             [Click; RpcSettles 0 r1; ConfirmSettles 0 r2])
  = trace (answering r1 r2) (onClick inv p w false).
Proof.
  unfold steps, mount, onClick, trace, answering.
  cbn [fold_left step kind props wallet isLoading pending history].
  destruct (disabled inv p w false) eqn:Hd.
  - reflexivity.
  - unfold resume. cbn [isLoading history pending List.length].
    open_handler inv.
    all: destruct w as [[pk|] [sg|]].
    all: split_on_stuck.
    all: try reflexivity.
    all: destruct r1; cbn; try reflexivity.
    all: destruct r2; cbn; try reflexivity.
    all: split_on_stuck; reflexivity.
Qed.

(** ** Parsed keys *)

Lemma byteToZ_range (b : byte) : (0 <= Buf.byteToZ b < 256)%Z.
Proof.
  unfold Buf.byteToZ. pose proof (Byte.to_N_bounded b). lia.
Qed.

Lemma toBN_range (l : Buffer) :
  (0 <= Buf.toBN l < 256 ^ Z.of_nat (List.length l))%Z.
Proof.
  induction l as [|b l IH] using rev_ind.
  - cbn. lia.
  - rewrite toBN_snoc, length_app. cbn [List.length].
    replace (Z.of_nat (List.length l + 1)) with (Z.succ (Z.of_nat (List.length l)))
      by lia.
    rewrite Z.pow_succ_r by lia.
    pose proof (byteToZ_range b). nia.
Qed.

(** X17: a key parsed from a string is a number below 2^256; its buffer
    has 32 bytes and reads back as the same key. *)
Theorem parsed_key_round_trips (value : string) (key : PublicKey) :
  PublicKeys.ofString value = inr key ->
  (0 <= _bn key < 2 ^ 256)%Z
  /\ List.length (PublicKeys.toBuffer key) = 32
  /\ PublicKeys.ofBytes (PublicKeys.toBuffer key) = key
  /\ PublicKeys.equals key key = true.
Proof.
  unfold PublicKeys.ofString.
  destruct (Bs58.decode value) as [decoded|]; [|discriminate].
  destruct (Nat.eqb (List.length decoded) PublicKeys.PUBLIC_KEY_LENGTH)
    eqn:Hlen; [|discriminate].
  intro H. injection H as <-. apply Nat.eqb_eq in Hlen.
  assert (Hr : (0 <= Buf.toBN decoded < 2 ^ 256)%Z).
  { pose proof (toBN_range decoded) as Hb. rewrite Hlen in Hb.
    exact Hb. }
  split; [exact Hr|]. split; [apply toBuffer_length|]. split.
  - unfold PublicKeys.ofBytes, PublicKeys.toBuffer,
      PublicKeys.PUBLIC_KEY_LENGTH.
    rewrite toBN_leBytes. cbn [_bn].
    change (256 ^ Z.of_nat 32)%Z with (2 ^ 256)%Z.
    now rewrite Z.mod_small.
  - unfold PublicKeys.equals. apply Z.eqb_refl.
Qed.

(** ** Running the test of [initializeProgram] again *)

(** X18: on a ledger without a Config account the test creates the
    account and passes; run again on the ledger it left, it meets the
    rejection, reads the admin it wrote and passes again, and leaves the
    ledger as it is. *)
Theorem initialize_test_can_run_again (rejection : Caught)
  (txSignature : TransactionSignature) (ledger : Ledger)
  (configKey : PublicKey) :
  reportsAlreadyInUse rejection = true ->
  accountAt ledger configKey = None ->
  let first := test_onLedger rejection txSignature ledger configKey in
  let second := test_onLedger rejection txSignature (fst first) configKey in
  snd first = ([LogSuccess txSignature], Passed)
  /\ accountAt (fst first) configKey = Some initializeArgs
  /\ snd second = ([WarnAlreadyInitialized; FetchConfig configKey], Passed)
  /\ fst second = fst first.
Proof.
  intros Hrej Hnone first second.
  assert (Hfirst : first = ((configKey, initializeArgs) :: ledger,
                            ([LogSuccess txSignature], Passed))).
  { subst first. unfold test_onLedger, onchain_initializeProgram.
    rewrite Hnone. reflexivity. }
  assert (Hat : accountAt ((configKey, initializeArgs) :: ledger) configKey
                = Some initializeArgs).
  { cbn [accountAt]. unfold PublicKeys.equals. now rewrite Z.eqb_refl. }
  subst second. rewrite Hfirst. cbn [fst snd].
  unfold test_onLedger, onchain_initializeProgram. rewrite Hat.
  unfold test_isInitialized, onchain_fetch. rewrite Hrej, Hat.
  cbn [admin initializeArgs]. rewrite String.eqb_refl.
  repeat split; reflexivity || exact Hat.
Qed.

(** ** The base-58 text of a key *)

Lemma byteOfZ_byteToZ (b : byte) : Buf.byteOfZ (Buf.byteToZ b) = b.
Proof.
  unfold Buf.byteOfZ. rewrite land_255.
  rewrite Z.mod_small by apply byteToZ_range.
  unfold Buf.byteToZ. rewrite N2Z.id, Byte.of_to_N. reflexivity.
Qed.

Lemma byteToZ_zero (b : byte) : Buf.byteToZ b = 0%Z -> b = x00.
Proof.
  intro H. rewrite <- (byteOfZ_byteToZ b), H. reflexivity.
Qed.

Lemma toBN_cons (b : byte) (l : Buffer) :
  Buf.toBN (b :: l)
  = (Buf.byteToZ b * 256 ^ Z.of_nat (List.length l) + Buf.toBN l)%Z.
Proof.
  induction l as [|x l IH] using rev_ind.
  - cbn. lia.
  - change (b :: l ++ [x]) with ((b :: l) ++ [x]).
    rewrite !toBN_snoc, IH, length_app. cbn [List.length].
    replace (Z.of_nat (List.length l + 1)) with (Z.succ (Z.of_nat (List.length l)))
      by lia.
    rewrite Z.pow_succ_r by lia. ring.
Qed.

(** Writing a number read from [l] on as many bytes gives [l] back. *)
Lemma leBytes_toBN (l : Buffer) :
  rev (BN.leBytes (List.length l) (Buf.toBN l)) = l.
Proof.
  induction l as [|b l IH] using rev_ind.
  - reflexivity.
  - rewrite length_app, Nat.add_1_r, toBN_snoc. cbn [BN.leBytes rev].
    pose proof (byteToZ_range b) as Hb.
    assert (Hlow : Z.land (Buf.toBN l * 256 + Buf.byteToZ b) 255
                   = Buf.byteToZ b).
    { rewrite land_255, Z.add_comm, Z_mod_plus_full.
      now apply Z.mod_small. }
    assert (Hhigh : Z.shiftr (Buf.toBN l * 256 + Buf.byteToZ b) 8
                    = Buf.toBN l).
    { rewrite Z.shiftr_div_pow2 by lia. change (2 ^ 8)%Z with 256%Z.
      rewrite Z.div_add_l by lia. rewrite Z.div_small by lia. lia. }
    rewrite Hlow, Hhigh, IH, byteOfZ_byteToZ. reflexivity.
Qed.

Lemma byteLength_toBN (b : byte) (l : Buffer) :
  b <> x00 ->
  BN.byteLength (Buf.toBN (b :: l)) = Z.of_nat (S (List.length l)).
Proof.
  intro Hb.
  pose proof (toBN_range (b :: l)) as Hhi. cbn [List.length] in Hhi.
  pose proof (toBN_range l) as Hl.
  pose proof (byteToZ_range b) as Hr.
  assert (Hpos : (1 <= Buf.byteToZ b)%Z).
  { destruct (Z.eq_dec (Buf.byteToZ b) 0) as [Hz|Hz]; [|lia].
    now apply byteToZ_zero in Hz. }
  set (k := Z.of_nat (List.length l)) in *.
  assert (Hk : (0 <= k)%Z) by (subst k; lia).
  assert (Hp : (0 < 256 ^ k)%Z) by (apply Z.pow_pos_nonneg; lia).
  assert (Hlo : (256 ^ k <= Buf.toBN (b :: l))%Z).
  { rewrite toBN_cons. fold k. nia. }
  rewrite Nat2Z.inj_succ in *. fold k in Hhi |- *.
  assert (H256 : forall j, (0 <= j)%Z -> (256 ^ j = 2 ^ (8 * j))%Z).
  { intros j Hj. rewrite Z.pow_mul_r by lia. reflexivity. }
  rewrite H256 in Hlo by lia. rewrite H256 in Hhi by lia.
  unfold BN.byteLength.
  destruct (Buf.toBN (b :: l) <=? 0)%Z eqn:Hz; [apply Z.leb_le in Hz; lia|].
  apply Z.leb_gt in Hz.
  apply Z.log2_le_pow2 in Hlo; [|lia].
  destruct Hhi as [_ Hhi]. apply Z.log2_lt_pow2 in Hhi; [|lia].
  symmetry.
  apply (Z.div_unique _ _ _ (Z.log2 (Buf.toBN (b :: l)) - 8 * k)); lia.
Qed.

Lemma leadingZeros_nonzero (b : byte) (l : Buffer) :
  b <> x00 -> Bs58.leadingZeros (b :: l) = 0.
Proof. intro Hb. destruct b; try reflexivity. contradiction. Qed.

(** [bs58.decode] gives back the bytes from the count of leading zeros
    and the number. *)
Lemma zeros_and_number (b : Buffer) :
  repeat x00 (Bs58.leadingZeros b) ++ BN.toArrayBE (Buf.toBN b) = b.
Proof.
  induction b as [|x l IH].
  - reflexivity.
  - destruct (Byte.byte_eq_dec x x00) as [->|Hx].
    + cbn [Bs58.leadingZeros repeat app].
      rewrite toBN_cons. change (Buf.byteToZ x00) with 0%Z.
      rewrite Z.mul_0_l, Z.add_0_l, IH. reflexivity.
    + rewrite (leadingZeros_nonzero x l Hx). cbn [repeat app].
      unfold BN.toArrayBE. rewrite (byteLength_toBN x l Hx), Nat2Z.id.
      exact (leBytes_toBN (x :: l)).
Qed.

Lemma append_cons (c : ascii) (a b : string) :
  String.append (String c a) b = String c (String.append a b).
Proof. reflexivity. Qed.

Lemma digitIn_charAt (n : nat) :
  n < 58 ->
  Bs58.digitIn Bs58.ALPHABET (Bs58.charAt (Z.of_nat n)) 0 = Some (Z.of_nat n).
Proof.
  intro Hn.
  do 58 (destruct n as [|n]; [vm_compute; reflexivity|]). lia.
Qed.

Lemma charAt_not_one (n : nat) :
  0 < n < 58 -> Bs58.charAt (Z.of_nat n) <> "1"%char.
Proof.
  intro Hn. destruct n as [|n]; [lia|].
  do 57 (destruct n as [|n]; [vm_compute; discriminate|]). lia.
Qed.

Lemma leadingOnes_other (c : ascii) (r : string) :
  c <> "1"%char -> Bs58.leadingOnes (String c r) = 0.
Proof.
  intro Hc. destruct c as [[] [] [] [] [] [] [] []]; try reflexivity.
  contradiction.
Qed.

Lemma decodeNumber_digits (fuel : nat) :
  forall n acc,
    (0 <= n < 58 ^ Z.of_nat fuel)%Z ->
    Bs58.decodeNumber (Bs58.digits fuel n acc) 0 = Bs58.decodeNumber acc n.
Proof.
  induction fuel as [|fuel IH]; intros n acc Hn.
  - cbn in *. now replace n with 0%Z by lia.
  - cbn [Bs58.digits]. destruct (n <=? 0)%Z eqn:Hz.
    + apply Z.leb_le in Hz. now replace n with 0%Z by lia.
    + apply Z.leb_gt in Hz.
      rewrite Nat2Z.inj_succ, Z.pow_succ_r in Hn by lia.
      rewrite IH.
      * cbn [Bs58.decodeNumber].
        pose proof (Z.mod_pos_bound n 58 ltac:(lia)) as Hm.
        replace (n mod 58)%Z with (Z.of_nat (Z.to_nat (n mod 58))) by lia.
        rewrite digitIn_charAt by lia.
        rewrite Z2Nat.id by lia.
        f_equal. pose proof (Z.div_mod n 58 ltac:(lia)). lia.
      * split; [apply Z.div_pos; lia|].
        apply Z.div_lt_upper_bound; lia.
Qed.

Lemma digits_head (fuel : nat) :
  forall n acc,
    (0 < n < 58 ^ Z.of_nat fuel)%Z ->
    exists c r, Bs58.digits fuel n acc = String c r /\ c <> "1"%char.
Proof.
  induction fuel as [|fuel IH]; intros n acc Hn.
  - cbn in Hn. lia.
  - cbn [Bs58.digits]. destruct (n <=? 0)%Z eqn:Hz;
      [apply Z.leb_le in Hz; lia|].
    rewrite Nat2Z.inj_succ, Z.pow_succ_r in Hn by lia.
    destruct (Z.eq_dec (n / 58) 0) as [Hq|Hq].
    + rewrite Hq.
      assert (Hsmall : (n < 58)%Z).
      { pose proof (Z.div_mod n 58 ltac:(lia)).
        pose proof (Z.mod_pos_bound n 58 ltac:(lia)). lia. }
      rewrite Z.mod_small by lia.
      exists (Bs58.charAt n), acc. split.
      * destruct fuel; reflexivity.
      * replace n with (Z.of_nat (Z.to_nat n)) by lia.
        apply charAt_not_one. lia.
    + apply IH. split.
      * assert (0 <= n / 58)%Z by (apply Z.div_pos; lia). lia.
      * apply Z.div_lt_upper_bound; lia.
Qed.

Lemma decodeNumber_ones (z : nat) (s : string) :
  Bs58.decodeNumber (String.append (Bs58.ones z) s) 0
  = Bs58.decodeNumber s 0.
Proof.
  induction z as [|z IH]; [reflexivity|].
  cbn [Bs58.ones]. rewrite append_cons. exact IH.
Qed.

Lemma leadingOnes_ones (z : nat) (s : string) :
  Bs58.leadingOnes s = 0 ->
  Bs58.leadingOnes (String.append (Bs58.ones z) s) = z.
Proof.
  intro Hs. induction z as [|z IH]; [exact Hs|].
  cbn [Bs58.ones]. rewrite append_cons. cbn [Bs58.leadingOnes].
  now rewrite IH.
Qed.

(** Decoding the base-58 text of a buffer gives the buffer back. *)
Lemma decode_encode (b : Buffer) : Bs58.decode (Bs58.encode b) = Some b.
Proof.
  pose proof (toBN_range b) as Hr.
  assert (Hfuel : (Buf.toBN b < 58 ^ Z.of_nat (2 * List.length b))%Z).
  { rewrite Nat2Z.inj_mul, Z.pow_mul_r by lia.
    apply Z.lt_le_trans with (1 := proj2 Hr).
    apply Z.pow_le_mono_l. cbn. lia. }
  unfold Bs58.decode, Bs58.encode.
  rewrite decodeNumber_ones, decodeNumber_digits by lia.
  cbn [Bs58.decodeNumber].
  rewrite leadingOnes_ones.
  - now rewrite zeros_and_number.
  - destruct (Z.eq_dec (Buf.toBN b) 0) as [Hz|Hz].
    + rewrite Hz. destruct (2 * List.length b); reflexivity.
    + destruct (digits_head (2 * List.length b) (Buf.toBN b) EmptyString)
        as (c & r & Hd & Hc); [lia|].
      rewrite Hd. now apply leadingOnes_other.
Qed.

Lemma toBase58_inj (k1 k2 : PublicKey) :
  (0 <= _bn k1 < 2 ^ 256)%Z ->
  (0 <= _bn k2 < 2 ^ 256)%Z ->
  PublicKeys.toBase58 k1 = PublicKeys.toBase58 k2 -> k1 = k2.
Proof.
  intros H1 H2 Heq. apply (toBuffer_inj k1 k2 H1 H2).
  apply (f_equal Bs58.decode) in Heq. unfold PublicKeys.toBase58 in Heq.
  rewrite !decode_encode in Heq. now apply some_eq in Heq.
Qed.

(** The text of a key parses to the key. *)
Lemma ofString_toBase58 (key : PublicKey) :
  (0 <= _bn key < 2 ^ 256)%Z ->
  PublicKeys.ofString (PublicKeys.toBase58 key) = inr key.
Proof.
  intro Hk. unfold PublicKeys.ofString, PublicKeys.toBase58.
  rewrite decode_encode, toBuffer_length. cbn [Nat.eqb PublicKeys.PUBLIC_KEY_LENGTH].
  unfold PublicKeys.toBuffer, PublicKeys.PUBLIC_KEY_LENGTH.
  rewrite toBN_leBytes. change (256 ^ Z.of_nat 32)%Z with (2 ^ 256)%Z.
  rewrite Z.mod_small by exact Hk. now destruct key.
Qed.

(** ** The test of [initializeProgram] against an account in place *)

Lemma prefix_append (s t : string) : String.prefix s (String.append s t) = true.
Proof.
  induction s as [|c s IH]; [now destruct t|].
  rewrite append_cons. cbn [String.prefix].
  destruct (ascii_dec c c) as [_|Hc]; [exact IH | contradiction].
Qed.

(** A text includes what it was put together from. *)
Lemma includes_append (before needle after : string) :
  Js.includes (String.append before (String.append needle after)) needle
  = true.
Proof.
  unfold Js.includes.
  enough (H : exists n,
             String.index 0 needle
               (String.append before (String.append needle after)) = Some n)
    by (destruct H as [n ->]; reflexivity).
  induction before as [|c before IH].
  - change (String.append EmptyString (String.append needle after))
      with (String.append needle after).
    pose proof (prefix_append needle after) as Hp.
    destruct (String.append needle after) as [|x rest] eqn:Hs.
    + destruct needle; [exists 0; reflexivity | discriminate Hs].
    + cbn [String.index]. rewrite Hp. exists 0. reflexivity.
  - rewrite append_cons. cbn [String.index].
    destruct (String.prefix needle _); [exists 0; reflexivity|].
    destruct IH as [n ->]. exists (S n). reflexivity.
Qed.

(** The test recognises every rejection that carries the indication. *)
Lemma indication_is_recognised (i : Indication) (before after : string) :
  reportsAlreadyInUse (alreadyInUse i before after) = true.
Proof.
  unfold reportsAlreadyInUse, alreadyInUse. cbn [instanceofError toStringText].
  destruct i; cbn [indicationText]; rewrite includes_append;
    [reflexivity | apply orb_true_r].
Qed.

Lemma adminPublicKey_range : (0 <= _bn adminPublicKey < 2 ^ 256)%Z.
Proof. cbn. lia. Qed.

(** C7: when the Config account exists at the address, the call is
    rejected with the already-in-use indication and the chain is left as
    it is.  The test recognises the rejection in either wording and with
    any text around it, and does not throw it again: it warns, fetches the
    account at the same address, and passes exactly when the admin stored
    there is the expected admin; with another admin the expectation fails
    on the two texts, which differ. *)
Theorem existing_config_is_tolerated_and_checked (i : Indication)
  (before after : string) (txSignature : TransactionSignature)
  (ledger : Ledger) (configKey : PublicKey) (stored : ProgramConfig) :
  accountAt ledger configKey = Some stored ->
  (0 <= _bn (admin stored) < 2 ^ 256)%Z ->
  let rejection := alreadyInUse i before after in
  let result := test_onLedger rejection txSignature ledger configKey in
  onchain_initializeProgram rejection txSignature ledger configKey
    initializeArgs = (ledger, inl rejection)
  /\ fst result = ledger
  /\ fst (snd result) = [WarnAlreadyInitialized; FetchConfig configKey]
  /\ (snd (snd result) = Passed <-> admin stored = adminPublicKey)
  /\ (admin stored <> adminPublicKey ->
      PublicKeys.toBase58 (admin stored) <> PublicKeys.toBase58 adminPublicKey
      /\ snd (snd result)
         = ExpectationFailed (PublicKeys.toBase58 (admin stored))
             (PublicKeys.toBase58 adminPublicKey))
  /\ (forall error, snd (snd result) <> Rethrown error).
Proof.
  intros Hstored Hrange rejection result.
  assert (Hcall : onchain_initializeProgram rejection txSignature ledger
                    configKey initializeArgs = (ledger, inl rejection)).
  { unfold onchain_initializeProgram. now rewrite Hstored. }
  assert (Hresult :
            result
            = (ledger,
               ([WarnAlreadyInitialized; FetchConfig configKey],
                if String.eqb (PublicKeys.toBase58 (admin stored))
                     (PublicKeys.toBase58 adminPublicKey)
                then Passed
                else ExpectationFailed (PublicKeys.toBase58 (admin stored))
                       (PublicKeys.toBase58 adminPublicKey)))).
  { subst result. unfold test_onLedger. rewrite Hcall.
    unfold test_isInitialized, onchain_fetch. subst rejection.
    rewrite indication_is_recognised, Hstored. reflexivity. }
  rewrite Hresult. cbn [fst snd].
  split; [exact Hcall|]. split; [reflexivity|]. split; [reflexivity|].
  destruct (String.eqb_spec (PublicKeys.toBase58 (admin stored))
              (PublicKeys.toBase58 adminPublicKey)) as [Heq|Hneq].
  - apply (toBase58_inj _ _ Hrange adminPublicKey_range) in Heq.
    split; [split; [intros _; exact Heq | reflexivity]|].
    split; [intro Hne; contradiction | discriminate].
  - split; [split; [discriminate | intro Heq; rewrite Heq in Hneq; contradiction]|].
    split; [intros _; split; [exact Hneq | reflexivity] | discriminate].
Qed.

(** ** What a click ends in *)

Lemma hasErr_reported (v : ConfirmationValue) (e : TransactionError) :
  err v = Some e -> ReportedError e -> hasErr v = true.
Proof.
  intros He Hr. unfold hasErr. rewrite He.
  destruct e as [shown|name]; [reflexivity|].
  destruct name; [contradiction | reflexivity].
Qed.

Lemma hasErr_none (v : ConfirmationValue) : err v = None -> hasErr v = false.
Proof. intro He. unfold hasErr. now rewrite He. Qed.

Lemma hasErr_false (v : ConfirmationValue) (e : TransactionError) :
  hasErr v = false -> err v = Some e -> ~ ReportedError e.
Proof.
  unfold hasErr. intros Hf He. rewrite He in Hf.
  destruct e as [shown|name]; [discriminate Hf|].
  destruct name; [intro H; now apply H | discriminate Hf].
Qed.

Lemma transactionFailed_shown (v : ConfirmationValue) (e : TransactionError) :
  err v = Some e ->
  transactionFailed v
  = String.append "トランザクションが失敗しました: " (errShown e).
Proof. intro He. unfold transactionFailed. now rewrite He. Qed.

(** What follows a submission, by the answers of the network. *)
Lemma submission_outcomes (inv : Invoker) (props : Props) (w : Wallet)
  (net : Network) (call : MethodCall) :
  In (Submitted call) (trace net (handler inv props w)) ->
  match rpcResult net call with
  | inl e =>
      In (OnError (ErrorTranslator.translate inv e))
        (trace net (handler inv props w))
      /\ count isOnError (trace net (handler inv props w)) = 1
      /\ count isOnSuccess (trace net (handler inv props w)) = 0
  | inr s =>
      In (ConfirmRequested s Finalized) (trace net (handler inv props w))
      /\ match confirmResult net s Finalized with
         | inl e =>
             In (OnError (ErrorTranslator.translate inv e))
               (trace net (handler inv props w))
             /\ count isOnError (trace net (handler inv props w)) = 1
             /\ count isOnSuccess (trace net (handler inv props w)) = 0
         | inr v =>
             if hasErr v
             then In (OnError (transactionFailed v))
                    (trace net (handler inv props w))
                  /\ count isOnError (trace net (handler inv props w)) = 1
                  /\ count isOnSuccess (trace net (handler inv props w)) = 0
             else In (OnSuccess s) (trace net (handler inv props w))
                  /\ count isOnError (trace net (handler inv props w)) = 0
                  /\ count isOnSuccess (trace net (handler inv props w)) = 1
         end
  end.
Proof.
  unfold trace, count.
  open_handler inv.
  all: destruct w as [[pk|] [sg|]].
  all: split_on_stuck.
  all: rewrite ?translate_transactionFailed.
  all: intro Hin; members Hin; same_answer.
  all: repeat split; first [reflexivity | find_member].
Qed.

(** Every request for confirmation is made at "finalized", for the
    signature a submission returned. *)
Lemma confirmation_follows_submission (inv : Invoker) (props : Props)
  (w : Wallet) (net : Network) (s : TransactionSignature) (c : Commitment) :
  In (ConfirmRequested s c) (trace net (handler inv props w)) ->
  c = Finalized
  /\ exists call,
       In (Submitted call) (trace net (handler inv props w))
       /\ rpcResult net call = inr s.
Proof.
  unfold trace.
  open_handler inv.
  all: destruct w as [[pk|] [sg|]].
  all: split_on_stuck.
  all: intro Hin; members Hin.
  all: split; [reflexivity | eexists; split; [find_member|]].
  all: match goal with H : rpcResult _ _ = inr _ |- _ => exact H end.
Qed.

(** The success callback is reached only through a submission that
    returned the signature and a confirmation that reports no error. *)
Lemma success_needs_clean_confirmation (inv : Invoker) (props : Props)
  (w : Wallet) (net : Network) (s : TransactionSignature) :
  In (OnSuccess s) (trace net (handler inv props w)) ->
  count isOnError (trace net (handler inv props w)) = 0
  /\ exists call v,
       In (Submitted call) (trace net (handler inv props w))
       /\ rpcResult net call = inr s
       /\ confirmResult net s Finalized = inr v
       /\ forall e, err v = Some e -> ~ ReportedError e.
Proof.
  unfold trace, count.
  open_handler inv.
  all: destruct w as [[pk|] [sg|]].
  all: split_on_stuck.
  all: intro Hin; members Hin.
  all: split; [reflexivity|].
  all: do 2 eexists; split; [find_member|].
  all: split; [match goal with H : rpcResult _ _ = inr _ |- _ => exact H end|].
  all: split;
    [match goal with H : confirmResult _ _ _ = inr _ |- _ => exact H end|].
  all: intros e He;
    match goal with H : hasErr _ = false |- _ => exact (hasErr_false _ e H He) end.
Qed.

(** C3: a submission that returns a signature is followed by a request
    for confirmation; every such request is made at "finalized" and for
    the signature the submission returned.  When the confirmation carries
    an error, an object or the name of an error in [err], the click ends
    in one call of [onError] with the transaction-failed message of that
    error and the success callback is not called, although the signature
    came back.  When [err] is [null] the success callback is called once
    with the signature and [onError] is not called; and the success
    callback is called only after a confirmation that reports no error. *)
Theorem confirmation_decides_the_callback (inv : Invoker) (props : Props)
  (w : Wallet) (net : Network) :
  let tr := trace net (handler inv props w) in
  (forall call s,
     In (Submitted call) tr ->
     rpcResult net call = inr s ->
     In (ConfirmRequested s Finalized) tr)
  /\ (forall s c, In (ConfirmRequested s c) tr ->
        c = Finalized
        /\ exists call, In (Submitted call) tr /\ rpcResult net call = inr s)
  /\ (forall call s v e,
        In (Submitted call) tr ->
        rpcResult net call = inr s ->
        confirmResult net s Finalized = inr v ->
        err v = Some e ->
        ReportedError e ->
        In (OnError
              (String.append "トランザクションが失敗しました: " (errShown e)))
          tr
        /\ count isOnError tr = 1
        /\ count isOnSuccess tr = 0)
  /\ (forall call s v,
        In (Submitted call) tr ->
        rpcResult net call = inr s ->
        confirmResult net s Finalized = inr v ->
        err v = None ->
        In (OnSuccess s) tr
        /\ count isOnSuccess tr = 1
        /\ count isOnError tr = 0)
  /\ (forall s, In (OnSuccess s) tr ->
        exists call v,
          In (Submitted call) tr
          /\ rpcResult net call = inr s
          /\ confirmResult net s Finalized = inr v
          /\ forall e, err v = Some e -> ~ ReportedError e).
Proof.
  intro tr. subst tr.
  split; [|split; [|split; [|split]]].
  - intros call s Hin Hr.
    pose proof (submission_outcomes inv props w net call Hin) as H.
    rewrite Hr in H. exact (proj1 H).
  - intros s c Hin. exact (confirmation_follows_submission _ _ _ _ _ _ Hin).
  - intros call s v e Hin Hr Hc He Hrep.
    pose proof (submission_outcomes inv props w net call Hin) as H.
    rewrite Hr, Hc, (hasErr_reported v e He Hrep) in H.
    rewrite (transactionFailed_shown v e He) in H. exact (proj2 H).
  - intros call s v Hin Hr Hc He.
    pose proof (submission_outcomes inv props w net call Hin) as H.
    rewrite Hr, Hc, (hasErr_none v He) in H.
    destruct H as (_ & H1 & H2 & H3). auto.
  - intros s Hin.
    exact (proj2 (success_needs_clean_confirmation _ _ _ _ _ Hin)).
Qed.

Lemma onClick_enabled (inv : Invoker) (props : Props) (w : Wallet)
  (loading : bool) :
  disabled inv props w loading = false ->
  onClick inv props w loading = handler inv props w
  /\ exists consigner, publicKey w = Some consigner.
Proof.
  intro Hd. unfold onClick. rewrite Hd. split; [reflexivity|].
  destruct (publicKey w) as [pk|] eqn:Hpk; [now exists pk|].
  destruct inv; cbn [disabled] in Hd; rewrite Hpk in Hd; discriminate Hd.
Qed.

(** With a public key and no way to sign, the handler reports the wallet
    once and is done. *)
Lemma handler_without_signer (inv : Invoker) (props : Props)
  (pk : PublicKey) (net : Network) :
  run net (handler inv props (mkWallet (Some pk) None))
  = ([OnError walletNotConnected], inr tt).
Proof. destruct inv; reflexivity. Qed.

(** The checks of [handleAcceptTask] fail on the rejected inputs and on
    no others. *)
Lemma checkAcceptInputs_fails_iff (props : Props) (pk : PublicKey)
  (sg : option WalletSigner) :
  (exists e, checkAcceptInputs props pk = inl e)
  <-> AcceptInputsRejected props (mkWallet (Some pk) sg).
Proof.
  unfold checkAcceptInputs, AcceptInputsRejected. cbn [publicKey].
  destruct (Js.truthy (taskAccountPDAString props)) eqn:Ht; cbn [negb orb].
  2: { split; [intros _; left; reflexivity | intros _; eexists; reflexivity]. }
  destruct (Js.truthy (recipientPublicKeyString props)) eqn:Hr; cbn [negb].
  2: { split; [intros _; right; left; reflexivity
              | intros _; eexists; reflexivity]. }
  destruct (PublicKeys.ofString (taskAccountPDAString props)) as [e1|task]
    eqn:H1.
  { split; [intros _; right; right; left; now exists e1
           | intros _; now exists e1]. }
  destruct (PublicKeys.ofString (recipientPublicKeyString props))
    as [e2|recipient] eqn:H2.
  { split; [intros _; right; right; right; left; now exists e2
           | intros _; now exists e2]. }
  destruct (PublicKeys.equals recipient pk) eqn:Heq.
  { split; [|intros _; eexists; reflexivity].
    intros _. right; right; right; right. exists recipient, pk.
    repeat split; assumption. }
  split; [intros [e He]; discriminate He|].
  intros [H|[H|[[e H]|[[e H]|(r & c & Hr1 & Hr2 & Hr3)]]]];
    try discriminate H.
  apply some_eq in Hr2. subst c.
  injection Hr1 as <-. rewrite Heq in Hr3. discriminate Hr3.
Qed.

(** Rejected inputs end the click in one call of [onError]. *)
Lemma rejected_inputs_are_reported (inv : Invoker) (props : Props)
  (pk : PublicKey) (sg : WalletSigner) (net : Network) :
  InputsRejected inv props (mkWallet (Some pk) (Some sg)) ->
  exists reason,
    run net (handler inv props (mkWallet (Some pk) (Some sg)))
    = ([OnError (String.append (localPrefix inv) reason)], inr tt).
Proof.
  destruct inv; cbn [InputsRejected handler localPrefix].
  - intro Hbad. apply checkAcceptInputs_fails_iff in Hbad.
    destruct Hbad as [e He].
    exists (Js.interpolate (message e)).
    unfold handleAcceptTask, getProvider, ProcM.emit, ProcM.ret, ProcM.throw,
      ProcM.lift.
    cbn [publicKey signTransaction ProcM.bind]. rewrite He. reflexivity.
  - intros [e He]. exists (Js.interpolate (message e)).
    unfold handleRejectTask, parseTaskAccount, getProvider, ProcM.emit,
      ProcM.ret, ProcM.throw, ProcM.lift.
    cbn [publicKey signTransaction ProcM.bind]. rewrite He. reflexivity.
  - intros [e He]. exists (Js.interpolate (message e)).
    unfold handleReclaimFunds, parseTaskAccount, getProvider, ProcM.emit,
      ProcM.ret, ProcM.throw, ProcM.lift.
    cbn [publicKey signTransaction ProcM.bind]. rewrite He. reflexivity.
Qed.

(** A derivation of the client fails for want of a nonce, whichever of
    its addresses it is. *)
Lemma DerivationFails_code (inv : Invoker) (pk : PublicKey)
  (sg : option WalletSigner) (e : Thrown) :
  DerivationFails inv (mkWallet (Some pk) sg) e ->
  e = newError "Unable to find a viable program address nonce"
  /\ (findProgramAddressSync configSeeds PROGRAM_ID = inl e
      \/ (inv <> ReclaimTaskFunds
          /\ findProgramAddressSync (adminActionCounterSeeds pk) PROGRAM_ID
             = inl e)).
Proof.
  intros [H|(Hne & c & Hc & H)].
  - rewrite <- configSeeds_literal in H. split; [|left; exact H].
    exact (findFrom_fails_without_nonce _ _ _ _ fits_configSeeds H).
  - cbn [publicKey] in Hc. apply some_eq in Hc. subst c.
    rewrite <- adminActionCounterSeeds_scheme in H.
    split; [|right; split; [exact Hne | exact H]].
    exact (findFrom_fails_without_nonce _ _ _ _
             (fits_adminActionCounterSeeds pk) H).
Qed.

(** A failed derivation ends the click in one call of [onError], inside
    the loading state and before anything is submitted. *)
Lemma failed_derivation_reaches_onError (inv : Invoker) (props : Props)
  (pk : PublicKey) (sg : WalletSigner) (net : Network) (e : Thrown) :
  ~ InputsRejected inv props (mkWallet (Some pk) (Some sg)) ->
  DerivationFails inv (mkWallet (Some pk) (Some sg)) e ->
  run net (handler inv props (mkWallet (Some pk) (Some sg)))
  = ([ SetIsLoading true;
       ConsoleError (consoleLabel inv);
       OnError (ErrorTranslator.translate inv e);
       SetIsLoading false ],
     inr tt).
Proof.
  intros Hok Hd. apply DerivationFails_code in Hd. destruct Hd as [-> Hd].
  assert (Hcfg : forall e1,
             findProgramAddressSync configSeeds PROGRAM_ID = inl e1 ->
             e1 = newError "Unable to find a viable program address nonce").
  { intros e1 H.
    exact (findFrom_fails_without_nonce _ _ _ _ fits_configSeeds H). }
  assert (Hctr : forall e1,
             findProgramAddressSync (adminActionCounterSeeds pk) PROGRAM_ID
             = inl e1 ->
             e1 = newError "Unable to find a viable program address nonce").
  { intros e1 H.
    exact (findFrom_fails_without_nonce _ _ _ _
             (fits_adminActionCounterSeeds pk) H). }
  destruct inv; cbn [InputsRejected handler consoleLabel] in *.
  - destruct (checkAcceptInputs props pk) as [e0|[task recipient]] eqn:Hc.
    { exfalso. apply Hok.
      apply (checkAcceptInputs_fails_iff props pk (Some sg)).
      now exists e0. }
    unfold handleAcceptTask, getProvider, deriveAddress, confirmOrThrow,
      reportFailure, ProcM.emit, ProcM.ret, ProcM.throw, ProcM.lift.
    cbn [publicKey signTransaction ProcM.bind]. rewrite Hc.
    destruct (findProgramAddressSync configSeeds PROGRAM_ID)
      as [e1|[cfg n1]] eqn:H1.
    { rewrite (Hcfg e1 eq_refl). reflexivity. }
    destruct (findProgramAddressSync (adminActionCounterSeeds pk) PROGRAM_ID)
      as [e2|[ctr n2]] eqn:H2.
    { rewrite (Hctr e2 eq_refl). reflexivity. }
    destruct Hd as [Hd|[_ Hd]]; discriminate Hd.
  - destruct (PublicKeys.ofString (taskAccountPDAString props))
      as [e0|task] eqn:Hc.
    { exfalso. apply Hok. now exists e0. }
    unfold handleRejectTask, parseTaskAccount, getProvider, deriveAddress,
      confirmOrThrow, reportFailure, ProcM.emit, ProcM.ret, ProcM.throw,
      ProcM.lift.
    cbn [publicKey signTransaction ProcM.bind]. rewrite Hc.
    destruct (findProgramAddressSync configSeeds PROGRAM_ID)
      as [e1|[cfg n1]] eqn:H1.
    { rewrite (Hcfg e1 eq_refl). reflexivity. }
    destruct (findProgramAddressSync (adminActionCounterSeeds pk) PROGRAM_ID)
      as [e2|[ctr n2]] eqn:H2.
    { rewrite (Hctr e2 eq_refl). reflexivity. }
    destruct Hd as [Hd|[_ Hd]]; discriminate Hd.
  - destruct (PublicKeys.ofString (taskAccountPDAString props))
      as [e0|task] eqn:Hc.
    { exfalso. apply Hok. now exists e0. }
    unfold handleReclaimFunds, parseTaskAccount, getProvider, deriveAddress,
      confirmOrThrow, reportFailure, ProcM.emit, ProcM.ret, ProcM.throw,
      ProcM.lift.
    cbn [publicKey signTransaction ProcM.bind]. rewrite Hc.
    destruct (findProgramAddressSync configSeeds PROGRAM_ID)
      as [e1|[cfg n1]] eqn:H1.
    { rewrite (Hcfg e1 eq_refl). reflexivity. }
    destruct Hd as [Hd|[Hne _]]; [discriminate Hd | now contradiction Hne].
Qed.

(** A click that is let through ends with one callback, after at most one
    submission and one request for confirmation, and throws nothing. *)
Lemma handler_reports_once (inv : Invoker) (props : Props) (pk : PublicKey)
  (sg : option WalletSigner) (net : Network) :
  let tr := trace net (handler inv props (mkWallet (Some pk) sg)) in
  outcome net (handler inv props (mkWallet (Some pk) sg)) = inr tt
  /\ count isSubmitted tr <= 1
  /\ count isConfirmRequested tr <= 1
  /\ count isOnError tr <= 1
  /\ count isOnError tr + count isOnSuccess tr = 1.
Proof.
  unfold outcome, trace, count.
  open_handler inv.
  all: split_on_stuck.
  all: repeat split; try lia; reflexivity.
Qed.

(** C6: a click either is not let through, or ends with exactly one call
    of a callback, after at most one submission and one request for
    confirmation, and no thrown object leaves the handler.  Every failure
    of a click that is let through ends in one call of [onError] and in
    no call of the success callback: a wallet that cannot sign; inputs the
    local checks turn down; an address that cannot be derived; a
    submission the network rejects; a request for confirmation that
    fails; a confirmation that carries an error.  The success callback is
    called only when the submission returned a signature and the
    confirmation reports no error, and then [onError] is not called. *)
Theorem every_click_reports_once (inv : Invoker) (props : Props) (w : Wallet)
  (loading : bool) (net : Network) :
  let tr := trace net (onClick inv props w loading) in
  outcome net (onClick inv props w loading) = inr tt
  /\ count isSubmitted tr <= 1
  /\ count isConfirmRequested tr <= 1
  /\ count isOnError tr <= 1
  /\ (disabled inv props w loading = true -> tr = [])
  /\ (disabled inv props w loading = false ->
      count isOnError tr + count isOnSuccess tr = 1)
  /\ (disabled inv props w loading = false ->
      Spec.bothPresent w = false ->
      tr = [OnError walletNotConnected])
  /\ (disabled inv props w loading = false ->
      Spec.bothPresent w = true ->
      InputsRejected inv props w ->
      exists reason, tr = [OnError (String.append (localPrefix inv) reason)])
  /\ (disabled inv props w loading = false ->
      Spec.bothPresent w = true ->
      ~ InputsRejected inv props w ->
      forall e,
        DerivationFails inv w e ->
        tr = [ SetIsLoading true;
               ConsoleError (consoleLabel inv);
               OnError (ErrorTranslator.translate inv e);
               SetIsLoading false ])
  /\ (forall call e,
        In (Submitted call) tr ->
        rpcResult net call = inl e ->
        In (OnError (ErrorTranslator.translate inv e)) tr
        /\ count isOnError tr = 1
        /\ count isOnSuccess tr = 0)
  /\ (forall call s e,
        In (Submitted call) tr ->
        rpcResult net call = inr s ->
        confirmResult net s Finalized = inl e ->
        In (OnError (ErrorTranslator.translate inv e)) tr
        /\ count isOnError tr = 1
        /\ count isOnSuccess tr = 0)
  /\ (forall call s v e,
        In (Submitted call) tr ->
        rpcResult net call = inr s ->
        confirmResult net s Finalized = inr v ->
        err v = Some e ->
        ReportedError e ->
        In (OnError
              (String.append "トランザクションが失敗しました: " (errShown e)))
          tr
        /\ count isOnError tr = 1
        /\ count isOnSuccess tr = 0)
  /\ (forall s,
        In (OnSuccess s) tr ->
        count isOnError tr = 0
        /\ exists call v,
             In (Submitted call) tr
             /\ rpcResult net call = inr s
             /\ confirmResult net s Finalized = inr v
             /\ forall e, err v = Some e -> ~ ReportedError e).
Proof.
  intro tr. subst tr.
  destruct (disabled inv props w loading) eqn:Hd.
  - unfold onClick. rewrite Hd.
    change (trace net (ProcM.ret tt)) with (@nil Event).
    split; [reflexivity|]. cbn [count filter List.length].
    repeat split; try lia; try discriminate; intros; contradiction.
  - destruct (onClick_enabled inv props w loading Hd) as [-> [pk Hpk]].
    destruct w as [key sg]. cbn [publicKey] in Hpk. subst key.
    destruct (handler_reports_once inv props pk sg net)
      as (Hout & Hsub & Hconf & Herr & Hone).
    split; [exact Hout|]. split; [exact Hsub|]. split; [exact Hconf|].
    split; [exact Herr|]. split; [discriminate|]. split; [intros _; exact Hone|].
    split; [|split; [|split; [|split; [|split; [|split]]]]].
    + intros _ Hboth. destruct sg as [sg|]; [discriminate Hboth|].
      unfold trace. now rewrite handler_without_signer.
    + intros _ Hboth Hbad. destruct sg as [sg|]; [|discriminate Hboth].
      destruct (rejected_inputs_are_reported inv props pk sg net Hbad)
        as [reason Hrun].
      exists reason. unfold trace. now rewrite Hrun.
    + intros _ Hboth Hok e He. destruct sg as [sg|]; [|discriminate Hboth].
      unfold trace.
      now rewrite (failed_derivation_reaches_onError inv props pk sg net e
                     Hok He).
    + intros call e Hin Hr.
      pose proof (submission_outcomes inv props _ net call Hin) as H.
      rewrite Hr in H. exact H.
    + intros call s e Hin Hr Hc.
      pose proof (submission_outcomes inv props _ net call Hin) as H.
      rewrite Hr, Hc in H. exact (proj2 H).
    + intros call s v e Hin Hr Hc He Hrep.
      pose proof (submission_outcomes inv props _ net call Hin) as H.
      rewrite Hr, Hc, (hasErr_reported v e He Hrep) in H.
      rewrite (transactionFailed_shown v e He) in H. exact (proj2 H).
    + intros s Hin.
      exact (success_needs_clean_confirmation _ _ _ _ _ Hin).
Qed.

(** ** The address and the nonce of a derivation *)

(** The loop finds the largest nonce that gives an address. *)
Lemma findFrom_complete (top : nat) (seeds : list Buffer)
  (programId address : PublicKey) (nonce : nat) :
  1 <= nonce <= top ->
  createProgramAddressSync (seeds ++ [[Buf.byteOfZ (Z.of_nat nonce)]])
    programId = CreatedAt address ->
  (forall n, nonce < n <= top ->
     createProgramAddressSync (seeds ++ [[Buf.byteOfZ (Z.of_nat n)]])
       programId = OnCurve) ->
  findFrom top seeds programId = inr (address, nonce).
Proof.
  induction top as [|top IH]; intros Hn Hat Hup; [lia|].
  cbn [findFrom].
  destruct (Nat.eq_dec nonce (S top)) as [->|Hne].
  - rewrite Hat. reflexivity.
  - rewrite (Hup (S top)) by lia.
    apply IH; [lia | exact Hat |].
    intros n Hlt. apply Hup. lia.
Qed.

(** C9: the address and the nonce of a derivation are fixed by the seed
    bytes and the program alone.  [findProgramAddressSync] returns a pair
    exactly when it is the pair of the largest nonce below 256 that gives
    an address, and there is at most one such pair: two derivations from
    the same seed bytes and the same program give the same address and
    the same nonce. *)
Theorem derivation_is_deterministic (seeds : list Buffer)
  (programId : PublicKey) :
  (forall address nonce,
     findProgramAddressSync seeds programId = inr (address, nonce)
     <-> Derives seeds programId address nonce)
  /\ (forall address nonce address' nonce',
        Derives seeds programId address nonce ->
        Derives seeds programId address' nonce' ->
        address = address' /\ nonce = nonce').
Proof.
  split.
  - intros address nonce. unfold findProgramAddressSync, Derives. split.
    + apply findFrom_sound.
    + intros (Hn & Hat & Hup). now apply findFrom_complete.
  - intros a n a' n' (Hn & Hat & Hup) (Hn' & Hat' & Hup').
    assert (Heq : n = n').
    { destruct (Nat.lt_trichotomy n n') as [Hlt|[Heq|Hgt]]; [|exact Heq|].
      - rewrite (Hup n') in Hat' by lia. discriminate Hat'.
      - rewrite (Hup' n) in Hat by lia. discriminate Hat. }
    subst n'. rewrite Hat in Hat'. injection Hat' as Ha. now split.
Qed.

(** ** Naming oneself as the recipient *)

Lemma encode_nonempty (x : byte) (l : Buffer) :
  Js.truthy (Bs58.encode (x :: l)) = true.
Proof.
  unfold Bs58.encode.
  destruct (Byte.byte_eq_dec x x00) as [->|Hx].
  - cbn [Bs58.leadingZeros Bs58.ones]. rewrite append_cons. reflexivity.
  - rewrite (leadingZeros_nonzero x l Hx). cbn [Bs58.ones].
    change (String.append EmptyString ?s) with s.
    pose proof (toBN_range (x :: l)) as Hr.
    assert (Hpos : (0 < Buf.toBN (x :: l))%Z).
    { rewrite toBN_cons.
      pose proof (byteToZ_range x) as Hb. pose proof (toBN_range l) as Hl.
      assert (Buf.byteToZ x <> 0%Z) by (intro Hz; now apply byteToZ_zero in Hz).
      assert (0 < 256 ^ Z.of_nat (List.length l))%Z
        by (apply Z.pow_pos_nonneg; lia).
      nia. }
    destruct (digits_head (2 * List.length (x :: l)) (Buf.toBN (x :: l))
                EmptyString) as (c & r & Hd & _).
    { split; [exact Hpos|].
      rewrite Nat2Z.inj_mul, Z.pow_mul_r by lia.
      apply Z.lt_le_trans with (1 := proj2 Hr).
      apply Z.pow_le_mono_l. cbn. lia. }
    rewrite Hd. reflexivity.
Qed.

Lemma toBase58_truthy (key : PublicKey) :
  Js.truthy (PublicKeys.toBase58 key) = true.
Proof.
  unfold PublicKeys.toBase58.
  pose proof (toBuffer_length key) as Hlen.
  destruct (PublicKeys.toBuffer key) as [|x l]; [discriminate Hlen|].
  apply encode_nonempty.
Qed.

(** X19: a consigner who gives their own address, in its base-58 text, as
    the recipient of [acceptTask] is turned down on the spot: the click
    ends in one call of [onError] with the same-address message, and
    nothing is submitted. *)
Theorem own_address_is_refused (props : Props) (pk task : PublicKey)
  (sg : WalletSigner) (net : Network) :
  (0 <= _bn pk < 2 ^ 256)%Z ->
  PublicKeys.ofString (taskAccountPDAString props) = inr task ->
  recipientPublicKeyString props = PublicKeys.toBase58 pk ->
  run net (onClick AcceptTask props (mkWallet (Some pk) (Some sg)) false)
  = ([OnError (String.append keyFormatPrefix sameAddressMessage)], inr tt).
Proof.
  intros Hpk Htask Hrec.
  assert (Ht : Js.truthy (taskAccountPDAString props) = true).
  { destruct (taskAccountPDAString props); [|reflexivity].
    vm_compute in Htask. discriminate Htask. }
  assert (Hr : Js.truthy (recipientPublicKeyString props) = true)
    by (rewrite Hrec; apply toBase58_truthy).
  unfold onClick. cbn [disabled publicKey]. rewrite Ht, Hr. cbn [negb orb].
  cbn [handler].
  unfold handleAcceptTask, getProvider, checkAcceptInputs, ProcM.emit,
    ProcM.ret, ProcM.throw, ProcM.lift.
  cbn [publicKey signTransaction ProcM.bind].
  rewrite Ht, Hr. cbn [negb orb]. rewrite Htask, Hrec.
  rewrite (ofString_toBase58 pk Hpk).
  unfold PublicKeys.equals. rewrite Z.eqb_refl. reflexivity.
Qed.

End Client.

(** * Concrete runs *)

(** C1, as first stated, fails: of two lines holding "Error:" the
    translator returns the second, not the first. *)
Lemma first_generic_line_does_not_win :
  let logLines := ["Program log: Error: first"; "Program log: Error: second"] in
  let error := mkThrown (Some "failed to send transaction") (Some logLines) in
  ErrorTranslator.translate AcceptTask error = "Program log: Error: second"
  /\ ~ Spec.Translates error logLines (ErrorTranslator.translate AcceptTask error).
Proof.
  split.
  - reflexivity.
  - vm_compute. intro H. discriminate H.
Qed.


(** C2 at a task id taken from the clock, as the test does. *)
Lemma seeds_follow_documented_schemes_witness :
  taskAccountSeeds adminPublicKey 1730000000000
  = Some [Spec.task_account; Spec.keyBytes adminPublicKey;
          Spec.le8 1730000000000].
Proof.
  apply (proj1 (proj2 (proj2
           (seeds_follow_documented_schemes sampleDigest sampleOnCurve)))).
  lia.
Defined.

(** C4 at a recipient that is the connected wallet. *)
Lemma invalid_accept_inputs_fail_locally_witness :
  exists msgs,
    msgs <> []
    /\ handleAcceptTask sampleDigest sampleOnCurve sampleSelfPay sampleWallet
       = fold_right Emit (Done (inr tt)) (map OnError msgs)
    /\ (Spec.bothPresent sampleWallet = true ->
        exists reason,
          msgs = [String.append "公開鍵の形式が正しくありません: " reason]).
Proof.
  apply (invalid_accept_inputs_fail_locally sampleDigest sampleOnCurve
           sampleSelfPay sampleWallet).
  right; right; right; right.
  exists adminPublicKey, adminPublicKey.
  repeat split; reflexivity.
Defined.

(** C5, as first stated, fails for the hook: without a wallet it returns
    [null] and reports nothing. *)
Lemma hook_reports_no_error :
  let w := mkWallet None None in
  useSolanaProgram_getProvider w = None
  /\ trace sampleNetwork (ProcM.ret (useSolanaProgram_getProvider w)) = []
  /\ ~ Spec.Acquires (fun w => ProcM.ret (useSolanaProgram_getProvider w)).
Proof.
  split; [reflexivity|]. split; [reflexivity|].
  intro H.
  destruct (H sampleNetwork (mkWallet None None)) as [_ Hno].
  destruct (Hno eq_refl) as [_ [msg Hin]].
  exact Hin.
Qed.


(** A transaction that lands and fails on chain: the signature came back,
    and yet the click ends in [onError]. *)
Example landed_but_failed :
  trace sampleFailingNetwork
    (onClick sampleDigest sampleOnCurve RejectTask sampleProps sampleWallet
       false)
  = [ SetIsLoading true;
      Submitted
        (mkCall "rejectTask" []
           [ ("taskAccount", daoTreasury);
             ("consignerWallet", adminPublicKey);
             ("config",
              mkPublicKey
                25811117289906049145888401519940679556885800420099672890934088386240143445916);
             ("adminActionCounter",
              mkPublicKey
                25188646374746023637205498801000022971422525012427105490089204879933878025702);
             ("systemProgram", SystemProgram_programId) ]);
      ConfirmRequested "3sig" Finalized;
      ConsoleError "タスク拒否中にエラーが発生しました:";
      OnError "トランザクションが失敗しました: AccountInUse";
      SetIsLoading false ].
Proof. vm_compute. reflexivity. Qed.

(** With the sample curve test the first nonce tried, 255, is on the
    curve, and the search settles on 254. *)
Example config_nonce :
  findProgramAddressSync sampleDigest sampleOnCurve configSeeds PROGRAM_ID
  = inr (mkPublicKey
           25811117289906049145888401519940679556885800420099672890934088386240143445916,
         254).
Proof. vm_compute. reflexivity. Qed.

(** A second click while the first run waits for the network does
    nothing. *)
Example second_click_is_ignored :
  let mounted :=
    mount AcceptTask sampleProps sampleWallet in
  steps sampleDigest sampleOnCurve mounted [Click; Click]
  = steps sampleDigest sampleOnCurve mounted [Click]
  /\ isLoading (steps sampleDigest sampleOnCurve mounted [Click]) = true
  /\ isLoading
       (steps sampleDigest sampleOnCurve mounted
          [Click; RpcSettles 0 (inr "3sig");
           ConfirmSettles 0 (inr (mkConfirmation None))]) = false.
Proof. vm_compute. repeat split; reflexivity. Qed.

(** * Concrete runs of the further properties *)

(** X1 at the reject button with an empty task address. *)
Lemma malformed_task_address_fails_locally_witness :
  (forall e,
      PublicKeys.ofString (taskAccountPDAString (mkProps "" "")) = inl e ->
      handler sampleDigest sampleOnCurve RejectTask (mkProps "" "")
        sampleWallet
      = Emit (OnError (String.append taskFormatPrefix
                         (Js.interpolate (message e))))
          (Done (inr tt)))
  /\ (taskAccountPDAString (mkProps "" "") = "" ->
      handler sampleDigest sampleOnCurve RejectTask (mkProps "" "")
        sampleWallet
      = Emit (OnError (String.append taskFormatPrefix
                         "Invalid public key input"))
          (Done (inr tt))).
Proof.
  apply (malformed_task_address_fails_locally sampleDigest sampleOnCurve
           RejectTask (mkProps "" "") sampleWallet).
  - discriminate.
  - reflexivity.
Defined.

(** X3 at a wallet that has a public key and cannot sign. *)
Lemma disconnected_wallet_is_only_reported_witness :
  handler sampleDigest sampleOnCurve ReclaimTaskFunds sampleProps
    (mkWallet (Some adminPublicKey) None)
  = Emit (OnError walletNotConnected) (Done (inr tt)).
Proof.
  apply (disconnected_wallet_is_only_reported sampleDigest sampleOnCurve
           ReclaimTaskFunds sampleProps (mkWallet (Some adminPublicKey) None)).
  reflexivity.
Defined.

(** X4 at the sample props. *)
Lemma accept_submits_parsed_accounts_witness :
  exists pk t r config counter,
    publicKey sampleWallet = Some pk
    /\ PublicKeys.ofString (taskAccountPDAString sampleProps) = inr t
    /\ PublicKeys.ofString (recipientPublicKeyString sampleProps) = inr r
    /\ PublicKeys.equals r pk = false
    /\ sampleAcceptCall
       = mkCall "acceptTask" [r]
           [ ("taskAccount", t); ("consignerWallet", pk);
             ("recipientAccount", r); ("config", config);
             ("adminActionCounter", counter);
             ("systemProgram", SystemProgram_programId) ].
Proof.
  apply (accept_submits_parsed_accounts sampleDigest sampleOnCurve
           sampleProps sampleWallet sampleNetwork sampleAcceptCall).
  vm_compute. right. left. reflexivity.
Defined.

(** X6 at a transaction that lands and fails on chain. *)
Lemma run_after_submission_witness :
  run sampleFailingNetwork
    (handler sampleDigest sampleOnCurve AcceptTask sampleProps sampleWallet)
  = (SetIsLoading true :: Submitted sampleAcceptCall
       :: afterSubmission AcceptTask sampleFailingNetwork sampleAcceptCall
       ++ [SetIsLoading false],
     inr tt).
Proof.
  apply (run_after_submission sampleDigest sampleOnCurve AcceptTask
           sampleProps sampleWallet sampleFailingNetwork sampleAcceptCall).
  vm_compute. right. left. reflexivity.
Defined.

(** X8 under a curve test that leaves no nonce. *)
Lemma failed_derivation_is_reported_witness :
  run sampleNetwork
    (handler sampleDigest sampleAllOnCurve RejectTask sampleProps sampleWallet)
  = ([ SetIsLoading true;
       ConsoleError (consoleLabel RejectTask);
       OnError "Unable to find a viable program address nonce";
       SetIsLoading false ],
     inr tt).
Proof.
  apply (failed_derivation_is_reported sampleDigest sampleAllOnCurve
           RejectTask sampleProps sampleWallet sampleNetwork).
  - vm_compute. left. reflexivity.
  - intros call H. vm_compute in H.
    repeat (destruct H as [H|H]; [discriminate H|]). exact H.
Defined.

(** X9 at the logs of an expired task. *)
Lemma matched_tag_is_localized_witness :
  ErrorTranslator.translate AcceptTask
    (mkThrown (Some "failed to send transaction") (Some sampleExpiredLogs))
  = "タスクは期限切れです (TaskExpired)。".
Proof.
  apply (matched_tag_is_localized AcceptTask
           (mkThrown (Some "failed to send transaction")
              (Some sampleExpiredLogs))
           [ "Program log: Instruction: AcceptTask";
             "Program log: Error: simulated" ]
           [ "Program failed to complete" ]
           "Program log: AnchorError occurred. SunpathError::TaskExpired. Error Number: 6002."
           "TaskExpired" "タスクは期限切れです (TaskExpired)。").
  - reflexivity.
  - reflexivity.
  - reflexivity.
  - right. right. left. reflexivity.
  - reflexivity.
Defined.

(** X10 at a line with the marker in the middle. *)
Lemma afterMarker_follows_first_occurrence_witness :
  exists before,
    "Program log: SunpathError::TaskExpired."
    = String.append before
        (String.append ErrorTranslator.marker
           (ErrorTranslator.afterMarker
              "Program log: SunpathError::TaskExpired."))
    /\ forall p, p < String.length before ->
         String.substring p (String.length ErrorTranslator.marker)
           "Program log: SunpathError::TaskExpired."
         <> ErrorTranslator.marker.
Proof.
  apply (afterMarker_follows_first_occurrence
           "Program log: SunpathError::TaskExpired.").
  reflexivity.
Defined.


(** X12 at two keys of the test. *)
Lemma seeds_identify_task_and_consigner_witness :
  (forall t1 t2 s1 s2,
      (0 <= t1 < 2 ^ 64)%Z ->
      (0 <= t2 < 2 ^ 64)%Z ->
      taskAccountSeeds adminPublicKey t1 = Some s1 ->
      taskAccountSeeds daoTreasury t2 = Some s2 ->
      List.concat s1 = List.concat s2 ->
      adminPublicKey = daoTreasury /\ t1 = t2)
  /\ (List.concat (adminActionCounterSeeds adminPublicKey)
      = List.concat (adminActionCounterSeeds daoTreasury) ->
      adminPublicKey = daoTreasury).
Proof.
  apply (seeds_identify_task_and_consigner adminPublicKey daoTreasury).
  - cbn. lia.
  - cbn. lia.
Defined.

(** X13 at a task id taken from the clock. *)
Lemma seed_schemes_do_not_collide_witness :
  let seeds :=
    [Spec.task_account; Spec.keyBytes daoTreasury; Spec.le8 1730000000000] in
  List.length (List.concat configSeeds) = 9
  /\ List.length (List.concat (adminActionCounterSeeds adminPublicKey)) = 45
  /\ List.length (List.concat seeds) = 52
  /\ List.concat configSeeds
     <> List.concat (adminActionCounterSeeds adminPublicKey)
  /\ List.concat configSeeds <> List.concat seeds
  /\ List.concat (adminActionCounterSeeds adminPublicKey)
     <> List.concat seeds.
Proof.
  apply (seed_schemes_do_not_collide adminPublicKey daoTreasury
           1730000000000
           [Spec.task_account; Spec.keyBytes daoTreasury;
            Spec.le8 1730000000000]).
  vm_compute. reflexivity.
Defined.

(** X14 at the first task id that does not fit. *)
Lemma task_id_must_fit_eight_bytes_witness :
  (taskAccountSeeds adminPublicKey (2 ^ 64) = None
   <-> (2 ^ 64 <= 2 ^ 64)%Z)
  /\ (test_taskAccountKey sampleDigest sampleOnCurve adminPublicKey (2 ^ 64)
        PROGRAM_ID = None
      <-> (2 ^ 64 <= 2 ^ 64)%Z).
Proof.
  apply (task_id_must_fit_eight_bytes sampleDigest sampleOnCurve
           adminPublicKey (2 ^ 64) PROGRAM_ID).
  lia.
Defined.

(** X17 at the admin key of the test. *)
Lemma parsed_key_round_trips_witness :
  (0 <= _bn adminPublicKey < 2 ^ 256)%Z
  /\ List.length (PublicKeys.toBuffer adminPublicKey) = 32
  /\ PublicKeys.ofBytes (PublicKeys.toBuffer adminPublicKey) = adminPublicKey
  /\ PublicKeys.equals adminPublicKey adminPublicKey = true.
Proof.
  apply (parsed_key_round_trips
           "Gv3J4Cf84cnGmJZtQtUF4gEzqshxEDV9gqzrEg3g9iZU" adminPublicKey).
  vm_compute. reflexivity.
Defined.

(** X18 on an empty ledger. *)
Lemma initialize_test_can_run_again_witness :
  let first := test_onLedger sampleRejection "3sig" [] sampleConfigKey in
  let second :=
    test_onLedger sampleRejection "3sig" (fst first) sampleConfigKey in
  snd first = ([LogSuccess "3sig"], Passed)
  /\ accountAt (fst first) sampleConfigKey = Some initializeArgs
  /\ snd second
     = ([WarnAlreadyInitialized; FetchConfig sampleConfigKey], Passed)
  /\ fst second = fst first.
Proof.
  apply (initialize_test_can_run_again sampleRejection "3sig" []
           sampleConfigKey); reflexivity.
Defined.

(** * Concrete runs of the confirmation, the failures, the test and the
    derivation *)

(** C3 on the network where the transaction lands and fails on chain. *)
Lemma confirmation_decides_the_callback_witness :
  let tr :=
    trace sampleFailingNetwork
      (handler sampleDigest sampleOnCurve AcceptTask sampleProps
         sampleWallet) in
  In (OnError
        (String.append "トランザクションが失敗しました: "
           (errShown (ErrString "AccountInUse")))) tr
  /\ count isOnError tr = 1
  /\ count isOnSuccess tr = 0.
Proof.
  destruct (confirmation_decides_the_callback sampleDigest sampleOnCurve
              AcceptTask sampleProps sampleWallet sampleFailingNetwork)
    as (_ & _ & H & _).
  apply (H sampleAcceptCall "3sig"
           (mkConfirmation (Some (ErrString "AccountInUse")))
           (ErrString "AccountInUse")).
  - vm_compute. right. left. reflexivity.
  - reflexivity.
  - reflexivity.
  - reflexivity.
  - discriminate.
Defined.

(** C6 on a network that rejects the submission. *)
Lemma every_click_reports_once_witness :
  let tr :=
    trace sampleRejectingNetwork
      (onClick sampleDigest sampleOnCurve AcceptTask sampleProps
         sampleWallet false) in
  In (OnError "タスクは期限切れです (TaskExpired)。") tr
  /\ count isOnError tr = 1
  /\ count isOnSuccess tr = 0.
Proof.
  destruct (every_click_reports_once sampleDigest sampleOnCurve AcceptTask
              sampleProps sampleWallet false sampleRejectingNetwork)
    as (_ & _ & _ & _ & _ & _ & _ & _ & _ & H & _).
  apply (H sampleAcceptCall
           (mkThrown (Some "failed to send transaction")
              (Some sampleExpiredLogs))).
  - vm_compute. right. left. reflexivity.
  - reflexivity.
Defined.

(** C7 on the sample ledger, where the stored admin is the expected one. *)
Lemma existing_config_is_tolerated_and_checked_witness :
  snd (snd (test_onLedger
              (alreadyInUse CustomProgramError0
                 "Error: failed to send transaction: Transaction simulation failed: Error processing Instruction 0: "
                 "")
              "3sig" sampleLedger sampleConfigKey))
  = Passed.
Proof.
  destruct (existing_config_is_tolerated_and_checked CustomProgramError0
              "Error: failed to send transaction: Transaction simulation failed: Error processing Instruction 0: "
              "" "3sig" sampleLedger sampleConfigKey initializeArgs)
    as (_ & _ & _ & [_ H] & _).
  - reflexivity.
  - cbn. lia.
  - apply H. reflexivity.
Defined.

(** C9 at the Config seeds: the pair that [config_nonce] computes is the
    one of the largest nonce that gives an address. *)
Lemma derivation_is_deterministic_witness :
  Derives sampleDigest sampleOnCurve configSeeds PROGRAM_ID
    (mkPublicKey
       25811117289906049145888401519940679556885800420099672890934088386240143445916)
    254.
Proof.
  destruct (derivation_is_deterministic sampleDigest sampleOnCurve
              configSeeds PROGRAM_ID) as [H _].
  apply H. vm_compute. reflexivity.
Defined.

(** The test [if (confirmation.value.err)] goes by truthiness: an [err]
    that is the empty string, which no cluster reports, counts as none. *)
Example empty_err_is_no_error :
  hasErr (mkConfirmation (Some (ErrString ""))) = false
  /\ ~ ReportedError (ErrString "").
Proof. split; [reflexivity | intro H; now apply H]. Qed.

(** X19 at the sample wallet, with its own address as the recipient. *)
Lemma own_address_is_refused_witness :
  run sampleNetwork
    (onClick sampleDigest sampleOnCurve AcceptTask sampleSelfPay sampleWallet
       false)
  = ([OnError (String.append keyFormatPrefix sameAddressMessage)], inr tt).
Proof.
  apply (own_address_is_refused sampleDigest sampleOnCurve sampleSelfPay
           adminPublicKey daoTreasury walletSigner sampleNetwork).
  - cbn. lia.
  - vm_compute. reflexivity.
  - vm_compute. reflexivity.
Defined.
